(** * ClassIn gradebook converter: the CSV helper and the mapping merge

    A shallow embedding of [utils/csvHelper.ts] ([parseCSVLine], [parseCSV],
    [findHeaderRowIndex], [getUniqueNonNumericMarks],
    [processClassInToGradebook], [generateCSVContent]), of the records of
    [types.ts], of the mapping update of [handleFileSelect] and of
    [formatDateToUK] in [App.tsx], and of the functions of the component
    [GradeMapper] that edit the mapping ([updateEntry], [addEntry],
    [removeEntry]), followed by the properties of the specification that
    were checked against them and by further properties of the code.

    Conventions of the embedding.
    - A JavaScript string is the list of its UTF-16 code units ([jsstring]).
    - An array is a [list]; [a[i]] is list lookup, and an index out of range
      gives [undefined], which every use in the source replaces by [''] or
      tests for falsity.
    - An object used as a dictionary ([GradeMapping], [columnStats],
      [assignmentDates]) is a [gmap] over [jsstring]. This is exact for every
      key but the property name [__proto__], which JavaScript objects treat
      specially and which the embedding does not single out. The source
      asks a dictionary for a key with the method [hasOwnProperty] of the
      dictionary itself; on a dictionary that has an entry at the key
      hasOwnProperty that call fails and the function returns nothing,
      where the embedding gives the result of the lookup. The properties
      describe what the functions return.
    - Loops that [push] are folds that append; [forEach] with an early
      [return] is a fold whose step leaves the accumulator unchanged.
    - What the JavaScript host provides and the repository does not define
      (numbers, [parseFloat], [toFixed], [toUpperCase], the clock behind
      [Date], [Math.random]) is the interface [Host]. Every theorem holds for
      every host; [refHost] is an executable one used to run examples. *)

From Stdlib Require Import String Ascii NArith ZArith QArith Qabs Qround.
From Stdlib Require Import DecimalString DecimalPos DecimalN Sorted Lia.
From stdpp Require Import base tactics option list gmap.

Local Open Scope nat_scope.
Local Open Scope list_scope.

(** * The embedding *)

(** ** Strings *)

(** A string is its sequence of UTF-16 code units. *)
Abbreviation jsstring := (list N).

(** A string literal of the source that only has ASCII characters. *)
Fixpoint str (s : string) : jsstring :=
  match s with
  | EmptyString => []
  | String c s' => N_of_ascii c :: str s'
  end.

Arguments str _ : simpl never.

Definition QUOTE : N := 34%N.
Definition COMMA : N := 44%N.
Definition LF : N := 10%N.
Definition CR : N := 13%N.

(** The string tokens of the source that are not ASCII, by code unit. *)
Definition s_submitted : jsstring := [24050; 25552; 20132]%N.      (* 已提交 *)
Definition s_not_submitted : jsstring := [26410; 25552; 20132]%N.  (* 未提交 *)
Definition s_resubmitted : jsstring := [24050; 34917; 20132]%N.    (* 已补交 *)
Definition s_category_zh : jsstring := [25104; 32489; 31867; 21035]%N. (* 成绩类别 *)
Definition s_student_name_zh : jsstring := [23398; 29983; 22995; 21517]%N. (* 学生姓名 *)
Definition s_name_zh : jsstring := [22995; 21517]%N.               (* 姓名 *)

(** [s === t] *)
Definition streq (s t : jsstring) : bool := bool_decide (s = t).

(** Truthiness of a string: [''] is falsy. *)
Definition truthy (s : jsstring) : bool :=
  match s with [] => false | _ => true end.

(** [s || d] on strings. *)
Definition orElse (s d : jsstring) : jsstring := if truthy s then s else d.

(** [a[i] || ''], where [a[i]] is [undefined] out of range. *)
Definition cell (row : list jsstring) (i : nat) : jsstring :=
  default [] (row !! i).

(** White space and line terminators, the code units [String.prototype.trim]
    strips: TAB, LF, VT, FF, CR, SP, NBSP, U+1680, U+2000..U+200A, U+2028,
    U+2029, U+202F, U+205F, U+3000, U+FEFF. *)
Definition isWhiteSpace (c : N) : bool :=
  ((9 <=? c) && (c <=? 13) || (c =? 32) || (c =? 160) || (c =? 5760)
   || (8192 <=? c) && (c <=? 8202) || (c =? 8232) || (c =? 8233)
   || (c =? 8239) || (c =? 8287) || (c =? 12288) || (c =? 65279))%N.

Fixpoint trimStart (s : jsstring) : jsstring :=
  match s with
  | c :: s' => if isWhiteSpace c then trimStart s' else s
  | [] => []
  end.

Definition trimEnd (s : jsstring) : jsstring := reverse (trimStart (reverse s)).

Definition trim (s : jsstring) : jsstring := trimEnd (trimStart s).

Fixpoint startsWith (s p : jsstring) {struct p} : bool :=
  match p, s with
  | [], _ => true
  | c :: p', d :: s' => (c =? d)%N && startsWith s' p'
  | _ :: _, [] => false
  end.

Definition endsWith (s p : jsstring) : bool := startsWith (reverse s) (reverse p).

(** [s.includes(p)] *)
Fixpoint includes (s p : jsstring) : bool :=
  startsWith s p ||
  match s with
  | [] => false
  | _ :: s' => includes s' p
  end.

(** [s.substring(a, b)] for [a <= b]. *)
Definition substring (s : jsstring) (a b : nat) : jsstring := take (b - a) (drop a s).

(** [s.slice(1, -1)] *)
Definition slice_1_m1 (s : jsstring) : jsstring := take (length s - 2) (drop 1 s).

(** [s.replace] of every doubled quote by one quote (the regular expression
    of two quotes, global): matches are found left to right and do not
    overlap. *)
Fixpoint undoubleQuotes (s : jsstring) : jsstring :=
  match s with
  | c :: s' =>
      match s' with
      | d :: s'' =>
          if (c =? QUOTE)%N && (d =? QUOTE)%N then QUOTE :: undoubleQuotes s''
          else c :: undoubleQuotes s'
      | [] => [c]
      end
  | [] => []
  end.

(** [s.replace] of every quote by two quotes (global). *)
Fixpoint doubleQuotes (s : jsstring) : jsstring :=
  match s with
  | c :: s' => if (c =? QUOTE)%N then QUOTE :: QUOTE :: doubleQuotes s' else c :: doubleQuotes s'
  | [] => []
  end.

(** [s.replace(/[^\d.]/g, '')]: keeps the ASCII digits and the full stops. *)
Definition isDigit (c : N) : bool := ((48 <=? c) && (c <=? 57))%N.
Definition keepDigitsAndDots (s : jsstring) : jsstring :=
  filter (fun c => isDigit c || (c =? 46)%N) s.

(** [s.replace(/\.0$/, '.0')] *)
Definition replaceDotZero (s : jsstring) : jsstring :=
  if endsWith s (str ".0") then take (length s - 2) s ++ str ".0" else s.

(** [parts.join(sep)] *)
Fixpoint join (sep : jsstring) (parts : list jsstring) : jsstring :=
  match parts with
  | [] => []
  | [p] => p
  | p :: rest => p ++ sep ++ join sep rest
  end.

(** [s.split(sep)] for a separator of one code unit; [cur] is the piece being
    read. *)
Fixpoint split_from (sep : N) (cur : jsstring) (s : jsstring) : list jsstring :=
  match s with
  | [] => [cur]
  | c :: s' => if (c =? sep)%N then cur :: split_from sep [] s' else split_from sep (cur ++ [c]) s'
  end.
Definition split (sep : N) (s : jsstring) : list jsstring := split_from sep [] s.

(** [s.split(/\r?\n/)]: a piece ends at each LF, and the CR just before that
    LF, when there is one, belongs to the separator. *)
Definition dropFinalCR (s : jsstring) : jsstring :=
  match last s with
  | Some c => if (c =? CR)%N then take (length s - 1) s else s
  | None => s
  end.
Fixpoint splitLines_from (cur : jsstring) (s : jsstring) : list jsstring :=
  match s with
  | [] => [cur]
  | c :: s' =>
      if (c =? LF)%N then dropFinalCR cur :: splitLines_from [] s'
      else splitLines_from (cur ++ [c]) s'
  end.
Definition splitLines (s : jsstring) : list jsstring := splitLines_from [] s.

(** ** [types.ts] *)

Record ProcessedAssignment := {
  name : jsstring;
  totalMarks : jsstring;
  originalIndex : nat
}.

Record TargetRow := {
  StudentName : jsstring;
  AssignmentName : jsstring;
  AssignmentDate : jsstring;
  Category : jsstring;
  Marks : jsstring;
  TotalMarksPossible : jsstring
}.

Record ParseResult := {
  headers : list jsstring;
  data : list (list jsstring)
}.

Abbreviation GradeMapping := (gmap jsstring jsstring).

(** ** [parseCSVLine] *)

(** The two statements applied to a value before it is pushed: the surrounding
    quotes are removed when both are there, then the value is trimmed. *)
Definition unquote (value : jsstring) : jsstring :=
  if startsWith value [QUOTE] && endsWith value [QUOTE]
  then undoubleQuotes (slice_1_m1 value)
  else value.

Record LineState := {
  result : list jsstring;
  startValueIndex : nat;
  inQuotes : bool
}.

(** One iteration of the [for] loop, at index [i] with [char = line[i]]. *)
Definition parseCSVLine_step (line : jsstring) (st : LineState) (i : nat) (char : N) : LineState :=
  if (char =? QUOTE)%N then
    {| result := result st; startValueIndex := startValueIndex st; inQuotes := negb (inQuotes st) |}
  else if (char =? COMMA)%N && negb (inQuotes st) then
    let value := substring line (startValueIndex st) i in
    {| result := result st ++ [trim (unquote value)];
       startValueIndex := i + 1;
       inQuotes := inQuotes st |}
  else st.

(** The loop from index [i] on; [chars] is what is left of the line. *)
Fixpoint parseCSVLine_loop (line : jsstring) (st : LineState) (i : nat) (chars : jsstring) : LineState :=
  match chars with
  | [] => st
  | char :: chars' => parseCSVLine_loop line (parseCSVLine_step line st i char) (i + 1) chars'
  end.

Definition parseCSVLine (line : jsstring) : list jsstring :=
  let st := parseCSVLine_loop line {| result := []; startValueIndex := 0; inQuotes := false |} 0 line in
  let lastValue := drop (startValueIndex st) line in
  result st ++ [trim (unquote lastValue)].

(** ** [parseCSV] *)

Definition padRow (headerLength : nat) (row : list jsstring) : list jsstring :=
  if length row <? headerLength
  then row ++ replicate (headerLength - length row) []
  else row.

Definition parseCSV (content : jsstring) : ParseResult :=
  let lines := filter (fun line => trim line ≠ []) (splitLines content) in
  if length lines =? 0 then {| headers := []; data := [] |}
  else
    let data := map parseCSVLine lines in
    let headerLength := length (default [] (data !! 0)) in
    let normalizedData := map (padRow headerLength) data in
    {| headers := default [] (normalizedData !! 0); data := normalizedData |}.

(** ** The JavaScript host *)

(** Numbers and the built-in functions on them, upper-casing, the clock and
    the random source. [toFixed1 x] is [x.toFixed(1)]; [numOfNat] gives the
    numeric literals and the array lengths of the source as numbers.
    [getWorkingDaysFromStartToToday] is the function of that name in the
    source: it is calendar arithmetic on the host's [Date] and reads the
    clock, and the properties below only need that it returns a list of
    strings. [randomIndex k n] is the value of
    [Math.floor(Math.random() * n)] at the [k]-th use of [Math.random] in
    a run. The one law is that [toFixed] never returns the empty string. *)
Class Host := {
  number : Type;
  parseFloat : jsstring -> number;
  isNaN : number -> bool;
  toFixed1 : number -> jsstring;
  numOfNat : nat -> number;
  num_add : number -> number -> number;
  num_mul : number -> number -> number;
  num_div : number -> number -> number;
  toUpperCase : jsstring -> jsstring;
  getWorkingDaysFromStartToToday : jsstring -> list jsstring;
  randomIndex : nat -> nat -> nat;
  toFixed1_nonempty : forall x : number, toFixed1 x <> []
}.

Section CsvHelper.
Context {host : Host}.

(** ** [findHeaderRowIndex] *)

Definition potentialHeaders : list jsstring :=
  [str "Student Name"; s_student_name_zh; s_name_zh; str "Name"].

(** The test of one iteration: the trimmed first cell contains a marker. *)
Definition isHeaderRow (row : list jsstring) : bool :=
  let firstCell := trim (cell row 0) in
  existsb (fun h => includes firstCell h) potentialHeaders.

Fixpoint findHeaderRowIndex_loop (i : nat) (rows : list (list jsstring)) : nat :=
  match rows with
  | [] => 0
  | row :: rows' => if isHeaderRow row then i else findHeaderRowIndex_loop (i + 1) rows'
  end.

Definition findHeaderRowIndex (data : list (list jsstring)) : nat :=
  findHeaderRowIndex_loop 0 (take (min (length data) 20) data).

(** ** Rows of students *)

(** The guard both passes put on a row: [!studentName ||
    studentName.startsWith('---')] makes the row skipped. *)
Definition skipsRow (row : list jsstring) : bool :=
  let studentName := cell row 0 in
  negb (truthy studentName) || startsWith studentName (str "---").

(** The test on the maximum-marks cell of a column. *)
Definition cleanMaxMarks (maxMarksRow : list jsstring) (i : nat) : jsstring :=
  keepDigitsAndDots (cell maxMarksRow i).

Definition isNumeric (maxMarksRow : list jsstring) (i : nat) : bool :=
  negb (isNaN (parseFloat (cleanMaxMarks maxMarksRow i)))
  && negb (streq (cleanMaxMarks maxMarksRow i) []).

(** ** [getUniqueNonNumericMarks] *)

Definition validIndices (headerRow maxMarksRow : list jsstring) : list nat :=
  fold_left
    (fun validIndices i =>
       if truthy (cell headerRow i) && isNumeric maxMarksRow i
       then validIndices ++ [i] else validIndices)
    (seq 1 (length headerRow - 1)) [].

(** [uniqueSet.add(raw)]: a [Set] keeps its elements in insertion order. *)
Definition setAdd (raw : jsstring) (uniqueSet : list jsstring) : list jsstring :=
  if bool_decide (raw ∈ uniqueSet) then uniqueSet else uniqueSet ++ [raw].

(** The body of [validIndices.forEach] for one row. On a valid index
    [headerRow[index]] is a non-empty string. *)
Definition scanToken (headerRow row : list jsstring) (uniqueSet : list jsstring) (index : nat)
  : list jsstring :=
  let raw := trim (cell row index) in
  if streq raw (trim (cell headerRow index)) then uniqueSet
  else if streq raw (str "-") || streq raw s_category_zh || streq raw (str "Category")
  then uniqueSet
  else if truthy raw && isNaN (parseFloat raw) then setAdd raw uniqueSet
  else uniqueSet.

(** The body of [studentRows.forEach]. *)
Definition scanRow (headerRow : list jsstring) (validIndices : list nat)
  (uniqueSet : list jsstring) (row : list jsstring) : list jsstring :=
  if skipsRow row then uniqueSet
  else fold_left (scanToken headerRow row) validIndices uniqueSet.

Definition getUniqueNonNumericMarks (parsedData : ParseResult) : list jsstring :=
  let data := data parsedData in
  if length data <? 2 then [] else
  let headerIdx := findHeaderRowIndex data in
  let headerRow := default [] (data !! headerIdx) in
  if length data <=? headerIdx + 1 then [] else
  let maxMarksRow := default [] (data !! (headerIdx + 1)) in
  let validIndices := validIndices headerRow maxMarksRow in
  let studentRows := drop (headerIdx + 3) data in
  fold_left (scanRow headerRow validIndices) studentRows [].

(** ** [processClassInToGradebook] *)

Definition STANDARD_GRADES : list jsstring :=
  [str "A*"; str "A"; str "B"; str "C"; str "D"; str "E"; str "F"; str "G"; str "U"].

Definition STANDARD_GRADES_has (s : jsstring) : bool := bool_decide (s ∈ STANDARD_GRADES).

(** The loop that identifies the valid assignments. *)
Definition identifyAssignments (headerRow maxMarksRow : list jsstring) : list ProcessedAssignment :=
  fold_left
    (fun validAssignments i =>
       let assignmentName := cell headerRow i in
       if truthy assignmentName && isNumeric maxMarksRow i
       then validAssignments ++
            [{| name := assignmentName;
                totalMarks := cleanMaxMarks maxMarksRow i;
                originalIndex := i |}]
       else validAssignments)
    (seq 1 (length headerRow - 1)) [].

(** The dates: one use of [Math.random] per valid assignment, in order. The
    state is the dictionary and the number of draws made so far. A day that is
    [undefined] is kept as [''], which is falsy as well. *)
Definition drawDate (workingDays : list jsstring)
  (st : gmap jsstring jsstring * nat) (assignment : ProcessedAssignment)
  : gmap jsstring jsstring * nat :=
  let randomDay := cell workingDays (randomIndex (snd st) (length workingDays)) in
  (<[name assignment := randomDay]> (fst st), S (snd st)).

Definition drawDates (workingDays : list jsstring) (validAssignments : list ProcessedAssignment)
  : gmap jsstring jsstring :=
  fst (fold_left (drawDate workingDays) validAssignments (∅, 0)).

Definition fallbackDateOf (selectedDate : jsstring) : jsstring :=
  let dateParts := split 45%N selectedDate in
  if length dateParts =? 3
  then cell dateParts 2 ++ str "/" ++ cell dateParts 1 ++ str "/" ++ cell dateParts 0
  else selectedDate.

Inductive ColumnType := PURE_STATUS | MIXED.

Record ColumnStat := {
  type : ColumnType;
  average : number
}.

(** The three variables the analysis of a column updates. *)
Record ColumnScan := {
  hasNumeric : bool;
  hasGrade : bool;
  valuesForAverage : list number
}.

(** [mapped && !isNaN(parseFloat(mapped))], then the push of the score. *)
Definition pushMapped (gradeMapping : GradeMapping) (key : jsstring) (totalMarksNum : number)
  (values : list number) : list number :=
  match gradeMapping !! key with
  | Some mapped =>
      if truthy mapped && negb (isNaN (parseFloat mapped)) then
        let percentage := parseFloat mapped in
        let calculatedScore := num_mul (num_div percentage (numOfNat 100)) totalMarksNum in
        values ++ [calculatedScore]
      else values
  | None => values
  end.

(** The body of [for (const row of studentDataRows)] in the analysis. *)
Definition scanCell (gradeMapping : GradeMapping) (assignment : ProcessedAssignment)
  (totalMarksNum : number) (sc : ColumnScan) (row : list jsstring) : ColumnScan :=
  if skipsRow row then sc else
  let raw := trim (cell row (originalIndex assignment)) in
  if negb (truthy raw) then sc else
  if streq raw (trim (name assignment)) then sc else
  if streq raw (str "-") then sc else
  let numericVal := parseFloat raw in
  if negb (isNaN numericVal) then
    {| hasNumeric := true; hasGrade := hasGrade sc;
       valuesForAverage := valuesForAverage sc ++ [numericVal] |}
  else if STANDARD_GRADES_has (toUpperCase raw) then
    {| hasNumeric := hasNumeric sc; hasGrade := true;
       valuesForAverage :=
         pushMapped gradeMapping (toUpperCase raw) totalMarksNum (valuesForAverage sc) |}
  else
    {| hasNumeric := hasNumeric sc; hasGrade := hasGrade sc;
       valuesForAverage :=
         pushMapped gradeMapping (toUpperCase raw) totalMarksNum (valuesForAverage sc) |}.

(** The body of the [forEach] that fills [columnStats], for one assignment. *)
Definition analyzeColumn (gradeMapping : GradeMapping) (studentDataRows : list (list jsstring))
  (assignment : ProcessedAssignment) : ColumnStat :=
  let totalMarksNum := parseFloat (totalMarks assignment) in
  let sc := fold_left (scanCell gradeMapping assignment totalMarksNum) studentDataRows
              {| hasNumeric := false; hasGrade := false; valuesForAverage := [] |} in
  let type := if hasNumeric sc || hasGrade sc then MIXED else PURE_STATUS in
  let average :=
    if 0 <? length (valuesForAverage sc)
    then num_div (fold_left num_add (valuesForAverage sc) (numOfNat 0))
                 (numOfNat (length (valuesForAverage sc)))
    else numOfNat 0 in
  {| type := type; average := average |}.

Definition analyzeColumns (gradeMapping : GradeMapping) (studentDataRows : list (list jsstring))
  (validAssignments : list ProcessedAssignment) : gmap jsstring ColumnStat :=
  fold_left
    (fun columnStats assignment =>
       <[name assignment := analyzeColumn gradeMapping studentDataRows assignment]> columnStats)
    validAssignments ∅.

(** The computation of [finalMark] for one cell. *)
Definition resolveMark (stats : ColumnStat) (totalMarksNum : number) (rawMark : jsstring)
  (gradeMapping : GradeMapping) : jsstring :=
  let numericMark := parseFloat rawMark in
  let upperRaw := toUpperCase rawMark in
  if streq rawMark (str "-") then []
  else
    let rule : bool * jsstring :=
      match type stats with
      | PURE_STATUS =>
          if streq rawMark s_submitted then (true, toFixed1 totalMarksNum)
          else if streq rawMark s_not_submitted then (true, str "0")
          else if streq rawMark s_resubmitted then
            (true, toFixed1 (num_mul (num_div (numOfNat 60) (numOfNat 100)) totalMarksNum))
          else (false, [])
      | MIXED =>
          if streq rawMark s_not_submitted then (true, str "0")
          else if streq rawMark s_submitted then (true, orElse (toFixed1 (average stats)) (str "0"))
          else (false, [])
      end in
    let ruleApplied := fst rule in
    let ruleValue := snd rule in
    if ruleApplied then replaceDotZero ruleValue
    else if negb (isNaN numericMark) then replaceDotZero (toFixed1 numericMark)
    else
      match gradeMapping !! upperRaw with
      | Some mapped =>
          if truthy mapped && negb (isNaN (parseFloat mapped)) then
            let percentage := parseFloat mapped in
            replaceDotZero (toFixed1 (num_mul (num_div percentage (numOfNat 100)) totalMarksNum))
          else []
      | None => []
      end.

(** The record pushed for one cell. *)
Definition targetRow (studentName : jsstring) (assignment : ProcessedAssignment)
  (stats : ColumnStat) (date : jsstring) (rawMark : jsstring) (gradeMapping : GradeMapping)
  : TargetRow :=
  let totalMarksNum := parseFloat (totalMarks assignment) in
  {| StudentName := studentName;
     AssignmentName := name assignment;
     AssignmentDate := date;
     Category := str "Coursework";
     Marks := resolveMark stats totalMarksNum rawMark gradeMapping;
     TotalMarksPossible := toFixed1 totalMarksNum |}.

(** The body of the inner [validAssignments.forEach]. Every valid assignment
    has an entry in [columnStats] (lemma [analyzeColumns_lookup]), so the
    [None] branch, where the source would fail on [stats.type], is never
    taken. *)
Definition pushCell (columnStats : gmap jsstring ColumnStat)
  (assignmentDates : gmap jsstring jsstring) (fallbackDate : jsstring)
  (gradeMapping : GradeMapping) (row : list jsstring)
  (results : list TargetRow) (assignment : ProcessedAssignment) : list TargetRow :=
  let studentName := cell row 0 in
  let rawMark := trim (cell row (originalIndex assignment)) in
  if streq rawMark (trim (name assignment)) then results else
  match columnStats !! name assignment with
  | Some stats =>
      let date := orElse (default [] (assignmentDates !! name assignment)) fallbackDate in
      results ++ [targetRow studentName assignment stats date rawMark gradeMapping]
  | None => results
  end.

(** The body of the outer [studentDataRows.forEach]. *)
Definition pushRow (columnStats : gmap jsstring ColumnStat)
  (assignmentDates : gmap jsstring jsstring) (fallbackDate : jsstring)
  (gradeMapping : GradeMapping) (validAssignments : list ProcessedAssignment)
  (results : list TargetRow) (row : list jsstring) : list TargetRow :=
  if skipsRow row then results
  else fold_left (pushCell columnStats assignmentDates fallbackDate gradeMapping row)
         validAssignments results.

Definition processClassInToGradebook (parsedData : ParseResult) (selectedDate : jsstring)
  (gradeMapping : GradeMapping) : list TargetRow :=
  let data := data parsedData in
  let headerIdx := findHeaderRowIndex data in
  if length data <? headerIdx + 2 then [] else
  let headerRow := default [] (data !! headerIdx) in
  let maxMarksRow := default [] (data !! (headerIdx + 1)) in
  let studentDataRows := drop (headerIdx + 3) data in
  let validAssignments := identifyAssignments headerRow maxMarksRow in
  let workingDays := getWorkingDaysFromStartToToday selectedDate in
  let assignmentDates := drawDates workingDays validAssignments in
  let fallbackDate := fallbackDateOf selectedDate in
  let columnStats := analyzeColumns gradeMapping studentDataRows validAssignments in
  fold_left (pushRow columnStats assignmentDates fallbackDate gradeMapping validAssignments)
    studentDataRows [].

(** ** [generateCSVContent] *)

Definition csvHeaders : list jsstring :=
  [str "Student Name"; str "Assignment Name"; str "Assignment Date"; str "Category";
   str "Marks"; str "Total Marks Possible"].

(** The array built for one row. *)
Definition csvRow (row : TargetRow) : list jsstring :=
  [ [QUOTE] ++ StudentName row ++ [QUOTE];
    [QUOTE] ++ doubleQuotes (AssignmentName row) ++ [QUOTE];
    AssignmentDate row;
    [QUOTE] ++ Category row ++ [QUOTE];
    if truthy (Marks row) then Marks row else [];
    TotalMarksPossible row ].

Definition generateCSVContent (rows : list TargetRow) : jsstring :=
  let csvRows := map csvRow rows in
  join [LF] (join [COMMA] csvHeaders :: map (fun r => join [COMMA] r) csvRows).

(** ** The update of the mapping in [handleFileSelect] ([App.tsx]) *)

Record MergeState := {
  next : GradeMapping;
  hasChanges : bool
}.

(** The body of [foundStatuses.forEach]. *)
Definition mergeStatus (st : MergeState) (status : jsstring) : MergeState :=
  let key := toUpperCase status in
  if bool_decide (is_Some (next st !! key)) then st
  else {| next := <[key := str "0"]> (next st); hasChanges := true |}.

(** The function given to [setGradeMapping]. *)
Definition mergeStatuses (foundStatuses : list jsstring) (prev : GradeMapping) : MergeState :=
  fold_left mergeStatus foundStatuses {| next := prev; hasChanges := false |}.

Definition updateGradeMapping (foundStatuses : list jsstring) (prev : GradeMapping) : GradeMapping :=
  let st := mergeStatuses foundStatuses prev in
  if hasChanges st then next st else prev.

(** The mapping after [handleFileSelect content] from the mapping [prev]. *)
Definition handleFileSelect (content : jsstring) (prev : GradeMapping) : GradeMapping :=
  let parsed := parseCSV content in
  let foundStatuses := getUniqueNonNumericMarks parsed in
  updateGradeMapping foundStatuses prev.

End CsvHelper.

(** ** The vocabulary of the claims

    The definitions of this part are not taken from the source. They name, in
    the words of the specification and of the claims, what the properties of
    the second part are about: the qualifying students, the valid columns,
    the evidence that makes a column a mixed one, the rightmost column of a
    name, the records a run is expected to return. *)

Section Vocabulary.
Context {host : Host}.

(** In the words of the specification: a qualifying student is a row whose
    first cell is non-empty and does not start with three hyphens. *)
Definition qualifies (row : list jsstring) : bool :=
  negb (streq (cell row 0) []) && negb (startsWith (cell row 0) (str "---")).

(** In the words of the specification: the cell of a row in the column of an
    assignment, trimmed, is evidence of a graded column when the row is a
    qualifying student, the cell is not empty, is not the hyphen, is not the
    name of the assignment, and either parses as a number or is, in upper
    case, a standard grade letter. *)
Definition gradedEvidence (assignment : ProcessedAssignment) (row : list jsstring) : Prop :=
  let raw := trim (cell row (originalIndex assignment)) in
  qualifies row = true
  /\ raw <> [] /\ raw <> str "-" /\ raw <> trim (name assignment)
  /\ (isNaN (parseFloat raw) = false \/ toUpperCase raw ∈ STANDARD_GRADES).

(** In the words of the specification: column [i] is a valid assignment
    column when it is not column 0, its header cell is non-empty, and its
    maximum-marks cell, stripped of what is not a digit or a full stop, is
    not empty and parses as a number. *)
Definition validColumn (headerRow maxMarksRow : list jsstring) (i : nat) : bool :=
  (1 <=? i) && (i <? length headerRow)
  && negb (streq (cell headerRow i) [])
  && negb (streq (keepDigitsAndDots (cell maxMarksRow i)) [])
  && negb (isNaN (parseFloat (keepDigitsAndDots (cell maxMarksRow i)))).

(** The rows and the assignments [processClassInToGradebook] works on, as
    its [const] declarations define them. *)
Definition headerRowOf (parsedData : ParseResult) : list jsstring :=
  default [] (data parsedData !! findHeaderRowIndex (data parsedData)).

Definition maxMarksRowOf (parsedData : ParseResult) : list jsstring :=
  default [] (data parsedData !! (findHeaderRowIndex (data parsedData) + 1)).

Definition studentDataRowsOf (parsedData : ParseResult) : list (list jsstring) :=
  drop (findHeaderRowIndex (data parsedData) + 3) (data parsedData).

Definition validAssignmentsOf (parsedData : ParseResult) : list ProcessedAssignment :=
  identifyAssignments (headerRowOf parsedData) (maxMarksRowOf parsedData).

(** In the words of the claims: the rightmost valid assignment that has a
    given name, with its position among the valid assignments, which is also
    the number of the draw of [Math.random] made for it. *)
Definition rightmost (validAssignments : list ProcessedAssignment) (nm : jsstring)
  : option (nat * ProcessedAssignment) :=
  last (filter (fun ka => name (snd ka) = nm) (imap pair validAssignments)).

(** In the words of the claims: the record of a student row for an assignment
    is built from the cell of the row in the column of the assignment, with
    the statistics and the date of the rightmost valid assignment of that
    name; a cell that repeats the name of the assignment has no record. *)
Definition recordFor (gradeMapping : GradeMapping) (studentDataRows : list (list jsstring))
  (workingDays : list jsstring) (fallbackDate : jsstring)
  (validAssignments : list ProcessedAssignment)
  (row : list jsstring) (assignment : ProcessedAssignment) : option TargetRow :=
  let rawMark := trim (cell row (originalIndex assignment)) in
  if streq rawMark (trim (name assignment)) then None
  else
    match rightmost validAssignments (name assignment) with
    | Some (k, keyed) =>
        let stats := analyzeColumn gradeMapping studentDataRows keyed in
        let drawn := cell workingDays (randomIndex k (length workingDays)) in
        Some (targetRow (cell row 0) assignment stats (orElse drawn fallbackDate)
                rawMark gradeMapping)
    | None => None
    end.

Definition recordsKeyedByName (parsedData : ParseResult) (selectedDate : jsstring)
  (gradeMapping : GradeMapping) : list TargetRow :=
  let studentDataRows := studentDataRowsOf parsedData in
  let validAssignments := validAssignmentsOf parsedData in
  let workingDays := getWorkingDaysFromStartToToday selectedDate in
  flat_map
    (fun row =>
       if qualifies row
       then omap (recordFor gradeMapping studentDataRows workingDays
                    (fallbackDateOf selectedDate) validAssignments row)
                 validAssignments
       else [])
    studentDataRows.

(** In the words of the specification: the qualifying students, and the
    pairs of a qualifying student and a valid assignment. A pair is recorded
    when the trimmed cell is not the trimmed name of the assignment. *)
Definition qualifyingStudents (parsedData : ParseResult) : list (list jsstring) :=
  filter (fun row => qualifies row = true) (studentDataRowsOf parsedData).

Definition echoesHeader (row : list jsstring) (assignment : ProcessedAssignment) : bool :=
  streq (trim (cell row (originalIndex assignment))) (trim (name assignment)).

Definition recordedPairs (parsedData : ParseResult)
  : list (list jsstring * ProcessedAssignment) :=
  flat_map
    (fun row =>
       map (pair row)
           (filter (fun a => echoesHeader row a = false) (validAssignmentsOf parsedData)))
    (qualifyingStudents parsedData).

(** In the words of the specification: the value a cell adds to the
    accumulation set of a column. The row is a qualifying student; the cell,
    trimmed, is skipped when it is empty, the hyphen or the name of the
    assignment; a cell that parses as a number adds that number; any other
    cell adds the score of its entry in the mapping, taken at the upper case
    of the cell, when that entry parses as a number: the percentage of the
    total of the assignment. *)
Definition accumulated (gradeMapping : GradeMapping) (assignment : ProcessedAssignment)
  (row : list jsstring) : option number :=
  let raw := trim (cell row (originalIndex assignment)) in
  if negb (qualifies row) || streq raw [] || streq raw (str "-")
     || streq raw (trim (name assignment))
  then None
  else if negb (isNaN (parseFloat raw)) then Some (parseFloat raw)
  else
    match gradeMapping !! toUpperCase raw with
    | Some mapped =>
        if negb (streq mapped []) && negb (isNaN (parseFloat mapped))
        then Some (num_mul (num_div (parseFloat mapped) (numOfNat 100))
                           (parseFloat (totalMarks assignment)))
        else None
    | None => None
    end.

(** In the words of the specification: the arithmetic mean of the
    accumulation set, or 0 if it is empty. The sum is taken from the left,
    starting at 0. *)
Definition mean (values : list number) : number :=
  match values with
  | [] => numOfNat 0
  | _ :: _ => num_div (fold_left num_add values (numOfNat 0)) (numOfNat (length values))
  end.

Definition averageScore (gradeMapping : GradeMapping) (studentDataRows : list (list jsstring))
  (assignment : ProcessedAssignment) : number :=
  mean (omap (accumulated gradeMapping assignment) studentDataRows).

End Vocabulary.

Definition trimmed (s : jsstring) : bool := streq (trim s) s.
Definition noQuote (s : jsstring) : bool := forallb (fun c => negb (c =? QUOTE)%N) s.
Definition noComma (s : jsstring) : bool := forallb (fun c => negb (c =? COMMA)%N) s.

(** A field the emitter writes as it is: the date, the mark, the total. *)
Definition plainField (s : jsstring) : bool := trimmed s && noQuote s && noComma s.

(** A string of digits, a full stop and one digit, with an optional sign. *)
Definition oneDecimalPlace (s : jsstring) : bool :=
  match reverse (match s with c :: s' => if (c =? 45)%N then s' else s | [] => [] end) with
  | d :: p :: (_ :: _) as ds => isDigit d && (p =? 46)%N && forallb isDigit ds
  | _ => false
  end.

(** ** The loops, read another way

    Two loops of the source are easier to reason about in a second form,
    which the second part proves equal to the first: the token a cell
    contributes to the discovery pass, and the loop of [parseCSVLine]
    carrying the text of the current cell. *)

Section Readings.
Context {host : Host}.

(** The token a cell contributes, if any: the tests of [scanToken] in order. *)
Definition tokenAt (headerRow row : list jsstring) (index : nat) : option jsstring :=
  let raw := trim (cell row index) in
  if streq raw (trim (cell headerRow index)) then None
  else if streq raw (str "-") || streq raw s_category_zh || streq raw (str "Category") then None
  else if truthy raw && isNaN (parseFloat raw) then Some raw
  else None.

End Readings.

(** The value [parseCSVLine] pushes for the text of a cell. *)
Definition finishValue (value : jsstring) : jsstring := trim (unquote value).

(** The loop of [parseCSVLine], read with the text of the current cell in
    hand instead of the index where it starts. *)
Fixpoint scanLine (cur : jsstring) (inQ : bool) (res : list jsstring) (chars : jsstring)
  : list jsstring :=
  match chars with
  | [] => res ++ [finishValue cur]
  | c :: chars' =>
      if (c =? QUOTE)%N then scanLine (cur ++ [c]) (negb inQ) res chars'
      else if (c =? COMMA)%N && negb inQ then scanLine [] inQ (res ++ [finishValue cur]) chars'
      else scanLine (cur ++ [c]) inQ res chars'
  end.

(** Where the text of a cell leaves the quote state, when none of its commas
    is read outside quotes. *)
Fixpoint fieldEnd (inQ : bool) (f : jsstring) : option bool :=
  match f with
  | [] => Some inQ
  | c :: f' =>
      if (c =? QUOTE)%N then fieldEnd (negb inQ) f'
      else if (c =? COMMA)%N && negb inQ then None
      else fieldEnd inQ f'
  end.

(** ** A reference host

    An executable host for running examples. Numbers are NaN, the two
    infinities and the rationals: a decimal literal is read exactly and the
    arithmetic is exact, where JavaScript rounds to a double. [toFixed(1)]
    rounds to the nearest tenth, the larger one on a tie, as the language
    definition says; at [1e21] and above JavaScript switches to exponent
    notation, which this host does not do. Upper-casing is the one of ASCII
    letters. The clock is not after the start date, so the only working day is
    the start date itself, and [Math.random] returns 0. *)

Inductive refnum :=
  | RNaN
  | RInf (negative : bool)
  | RFin (q : Q).

Fixpoint takeDigits (s : jsstring) : jsstring * jsstring :=
  match s with
  | c :: s' => if isDigit c then (c :: fst (takeDigits s'), snd (takeDigits s')) else ([], s)
  | [] => ([], [])
  end.

Definition digitsValue (ds : jsstring) : N :=
  fold_left (fun acc d => (acc * 10 + (d - 48))%N) ds 0%N.

Definition takeSign (s : jsstring) : bool * jsstring :=
  match s with
  | c :: s' => if (c =? 45)%N then (true, s') else if (c =? 43)%N then (false, s') else (false, s)
  | [] => (false, [])
  end.

Definition exponentOf (s : jsstring) : Z :=
  match s with
  | c :: s' =>
      if (c =? 101)%N || (c =? 69)%N then
        let sg := takeSign s' in
        let ds := fst (takeDigits (snd sg)) in
        if fst sg then (- Z.of_N (digitsValue ds))%Z else Z.of_N (digitsValue ds)
      else 0%Z
  | [] => 0%Z
  end.

Definition ref_parseFloat (s : jsstring) : refnum :=
  let sg := takeSign (trimStart s) in
  if startsWith (snd sg) (str "Infinity") then RInf (fst sg) else
  let ip := takeDigits (snd sg) in
  let fp := match snd ip with
            | c :: r => if (c =? 46)%N then takeDigits r else ([], snd ip)
            | [] => ([], [])
            end in
  if negb (truthy (fst ip)) && negb (truthy (fst fp)) then RNaN else
  let mantissa := Z.of_N (digitsValue (fst ip ++ fst fp)) in
  let scale := Z.to_pos (10 ^ Z.of_nat (length (fst fp))) in
  let q := (Qmake mantissa scale * Qpower (10 # 1) (exponentOf (snd fp)))%Q in
  RFin (Qred (if fst sg then - q else q)%Q).

Definition ref_isNaN (x : refnum) : bool :=
  match x with RNaN => true | _ => false end.

Definition decimalOfZ (z : Z) : jsstring :=
  str (NilZero.string_of_uint (N.to_uint (Z.to_N z))).

Definition ref_toFixed1 (x : refnum) : jsstring :=
  match x with
  | RNaN => str "NaN"
  | RInf false => str "Infinity"
  | RInf true => str "-Infinity"
  | RFin q =>
      let n := Qfloor (Qabs q * (10 # 1) + (1 # 2))%Q in
      (if Qle_bool 0 q then [] else str "-")
      ++ decimalOfZ (n / 10) ++ 46%N :: [(48 + Z.to_N (n mod 10))%N]
  end.

Definition ref_ofNat (n : nat) : refnum := RFin (Z.of_nat n # 1).

Definition qIsZero (q : Q) : bool := Qeq_bool q 0.
Definition qIsNeg (q : Q) : bool := negb (Qle_bool 0 q).

Definition ref_add (x y : refnum) : refnum :=
  match x, y with
  | RNaN, _ | _, RNaN => RNaN
  | RInf a, RInf b => if Bool.eqb a b then RInf a else RNaN
  | RInf a, RFin _ | RFin _, RInf a => RInf a
  | RFin a, RFin b => RFin (Qred (a + b))
  end.

Definition ref_mul (x y : refnum) : refnum :=
  match x, y with
  | RNaN, _ | _, RNaN => RNaN
  | RInf a, RInf b => RInf (xorb a b)
  | RInf a, RFin q | RFin q, RInf a => if qIsZero q then RNaN else RInf (xorb a (qIsNeg q))
  | RFin a, RFin b => RFin (Qred (a * b))
  end.

Definition ref_div (x y : refnum) : refnum :=
  match x, y with
  | RNaN, _ | _, RNaN => RNaN
  | RInf _, RInf _ => RNaN
  | RInf a, RFin q => RInf (xorb a (qIsNeg q))
  | RFin _, RInf _ => RFin 0
  | RFin a, RFin b =>
      if qIsZero b then (if qIsZero a then RNaN else RInf (qIsNeg a))
      else RFin (Qred (a / b))
  end.

Definition ref_toUpperCase (s : jsstring) : jsstring :=
  map (fun c => if (97 <=? c)%N && (c <=? 122)%N then (c - 32)%N else c) s.

Definition ref_getWorkingDays (startDateStr : jsstring) : list jsstring :=
  let parts := split 45%N startDateStr in
  if length parts =? 3
  then [cell parts 2 ++ str "/" ++ cell parts 1 ++ str "/" ++ cell parts 0]
  else [startDateStr].

#[export] Instance refHost : Host.
Proof.
  refine {| number := refnum;
            parseFloat := ref_parseFloat;
            isNaN := ref_isNaN;
            toFixed1 := ref_toFixed1;
            numOfNat := ref_ofNat;
            num_add := ref_add;
            num_mul := ref_mul;
            num_div := ref_div;
            toUpperCase := ref_toUpperCase;
            getWorkingDaysFromStartToToday := ref_getWorkingDays;
            randomIndex := fun _ _ => 0;
            toFixed1_nonempty := _ |}.
  intros [|[|]|q]; simpl; try discriminate.
  intros H. apply app_eq_nil in H as [_ H]. apply app_eq_nil in H as [_ H].
  discriminate.
Defined.

(** ** [formatDateToUK] ([App.tsx]) *)

Definition formatDateToUK (isoDate : jsstring) : jsstring :=
  let parts := split 45%N isoDate in
  if negb (length parts =? 3) then isoDate
  else cell parts 2 ++ str "/" ++ cell parts 1 ++ str "/" ++ cell parts 0.

(** ** The editor of the mapping ([GradeMapper])

    [entries] is [Object.entries(mapping)]: the host lists the entries of
    the mapping, each key once, in its order of enumeration. The functions
    that walk the entries take the list as the host gives it, and
    [entriesOf] says what the list is; [entries.length] is the number of
    entries of the mapping. A number in a template literal is written in
    decimal. *)

Definition entriesOf (mapping : GradeMapping) (entries : list (jsstring * jsstring)) : Prop :=
  NoDup (map fst entries) /\ forall k v, (k, v) ∈ entries <-> mapping !! k = Some v.

(** The body of [entries.forEach] in [updateEntry]. *)
Definition updateEntry_step (oldKey newKey newValue : jsstring) (newMap : GradeMapping)
  (kv : jsstring * jsstring) : GradeMapping :=
  if streq (fst kv) oldKey then <[newKey := newValue]> newMap
  else <[fst kv := snd kv]> newMap.

(** The mapping [updateEntry] hands to [onChange]. *)
Definition updateEntry (entries : list (jsstring * jsstring))
  (oldKey newKey newValue : jsstring) : GradeMapping :=
  fold_left (updateEntry_step oldKey newKey newValue) entries ∅.

(** The mapping [addEntry] hands to [onChange]. *)
Definition addEntry (mapping : GradeMapping) : GradeMapping :=
  let newKey := str "New Grade " ++ decimalOfZ (Z.of_nat (size mapping + 1)) in
  <[newKey := str "0"]> mapping.

(** The mapping [removeEntry] hands to [onChange]. *)
Definition removeEntry (keyToRemove : jsstring) (mapping : GradeMapping) : GradeMapping :=
  delete keyToRemove mapping.

(** ** More vocabulary

    Words for the further properties. *)

(** No line feed and no carriage return. *)
Definition noLineBreak (s : jsstring) : bool :=
  forallb (fun c => negb (c =? LF)%N && negb (c =? CR)%N) s.

(** The number of occurrences of a code unit. *)
Definition countOf (c : N) (s : jsstring) : nat :=
  length (filter (fun d => d = c) s).

(** The six values of a record, in the order of the columns. *)
Definition rowValues (r : TargetRow) : list jsstring :=
  [StudentName r; AssignmentName r; AssignmentDate r; Category r; Marks r;
   TotalMarksPossible r].

(** A record the emitted text gives back: no value has white space at its
    ends or a line break, the student name and the category have no double
    quote, and the date, the mark and the total have no quote and no comma. *)
Definition emittable (r : TargetRow) : bool :=
  forallb noLineBreak (rowValues r)
  && trimmed (StudentName r) && noQuote (StudentName r)
  && trimmed (AssignmentName r)
  && trimmed (Category r) && noQuote (Category r)
  && plainField (AssignmentDate r) && plainField (Marks r)
  && plainField (TotalMarksPossible r).

(** The values of a record other than its date. *)
Definition withoutDate (r : TargetRow) : list jsstring :=
  [StudentName r; AssignmentName r; Category r; Marks r; TotalMarksPossible r].

(** The host of another run: the same numbers and functions on strings,
    other draws of [Math.random] and another list of working days, which
    the clock decides. *)
Definition otherRun (host : Host) (draws : nat -> nat -> nat)
  (workingDays : jsstring -> list jsstring) : Host :=
  {| number := @number host;
     parseFloat := @parseFloat host;
     isNaN := @isNaN host;
     toFixed1 := @toFixed1 host;
     numOfNat := @numOfNat host;
     num_add := @num_add host;
     num_mul := @num_mul host;
     num_div := @num_div host;
     toUpperCase := @toUpperCase host;
     getWorkingDaysFromStartToToday := workingDays;
     randomIndex := draws;
     toFixed1_nonempty := @toFixed1_nonempty host |}.

(** The key [addEntry] makes up for a mapping of [n - 1] entries. *)
Definition newGradeKey (n : nat) : jsstring :=
  str "New Grade " ++ decimalOfZ (Z.of_nat n).

(** ** The inputs of the examples *)

(** A text given line by line. *)
Definition text (lines : list jsstring) : jsstring := join [LF] lines.

Definition row_of (cells : list string) : list jsstring := map str cells.

Definition sampleTable : ParseResult :=
  {| headers := [];
     data := [ row_of ["Student Name"; "HW1"; "Quiz"; "Note"]%string;
               row_of ["Max"; "10"; "20 pts"; "n/a"]%string;
               row_of ["Category"; "-"; "-"; "-"]%string;
               row_of ["Amy"; "8"; "A"; "x"]%string;
               row_of ["---"; "1"; "2"; "3"]%string;
               row_of ["Bob"; "-"; "15.5"; "y"]%string ] |}.

(** A gradebook whose only student is named A, double quote, B: the line of
    the student is that name as a quoted cell, its quote doubled, followed by
    the mark 7. *)
Definition quotedNameTable : jsstring :=
  text [ str "Name,HW";
         str "Max,10";
         str "Cat,-";
         [QUOTE] ++ str "A" ++ [QUOTE; QUOTE] ++ str "B" ++ [QUOTE] ++ str ",7" ].

(** A gradebook whose only student is named a, double quote, comma, b: the
    line of the student is that name as a quoted cell, its quote doubled,
    followed by the mark 7. *)
Definition quotedCommaNameTable : jsstring :=
  text [ str "Name,HW";
         str "Max,10";
         str "Cat,-";
         [QUOTE] ++ str "a" ++ [QUOTE; QUOTE] ++ str ",b" ++ [QUOTE] ++ str ",7" ].

(** A gradebook with one assignment out of 10 and one student, who has not
    submitted. *)
Definition notSubmittedTable : jsstring :=
  text [ str "Name,HW1"; str "Max,10"; str "Cat,-"; str "Amy," ++ s_not_submitted ].

(** A gradebook whose students have, in the only assignment column, the
    grade letter A, the cell 12abc, the hyphen, the header of the column and
    a category label. *)
Definition gradeLetterTable : jsstring :=
  text [str "Name,HW1"; str "Max,10"; str "Cat,-";
        str "Amy,A"; str "Bob,12abc"; str "Cara,-"; str "Dan,HW1"; str "Eve,Category"].

(** A gradebook in which the cell of the only student repeats the header of
    the only assignment. *)
Definition echoTable : jsstring :=
  text [str "Name,HW1"; str "Max,10"; str "Cat,-"; str "Amy,HW1"].

(** Two assignments named HW. The left column holds a number, so by its own
    cells it is mixed, with the average 5; the right column holds only
    status words. *)
Definition twoColumnsOneName : jsstring :=
  text [ str "Name,HW,HW"; str "Max,10,10"; str "Cat,-,-";
         str "Amy," ++ s_submitted ++ str "," ++ s_submitted;
         str "Bob,5,late" ].


(** Two assignments named HW. The left column holds the word for
    resubmitted only; the right column holds a number. *)
Definition resubmittedTable : jsstring :=
  text [ str "Name,HW,HW"; str "Max,10,10"; str "Cat,-,-";
         str "Amy," ++ s_resubmitted ++ str ",7" ].

(** A record whose names hold commas, and whose assignment name also holds
    double quotes. *)
Definition commaRecord : TargetRow :=
  {| StudentName := str "Doe, Amy";
     AssignmentName := str "Essay " ++ [QUOTE] ++ str "a,b" ++ [QUOTE] ++ str ", draft";
     AssignmentDate := str "05/03/2024";
     Category := str "Coursework";
     Marks := str "7.5";
     TotalMarksPossible := str "10.0" |}.

(** The record of Amy for HW1 in a run on [sampleTable] from 5 March 2024. *)
Definition amyRecord : TargetRow :=
  {| StudentName := str "Amy";
     AssignmentName := str "HW1";
     AssignmentDate := str "05/03/2024";
     Category := str "Coursework";
     Marks := str "8.0";
     TotalMarksPossible := str "10.0" |}.

(** A mapping whose only key is a lower-case letter. *)
Definition lowerCaseMapping : GradeMapping := {[ str "a" := str "90" ]}.

(** A mapping of two rules. *)
Definition twoRules : GradeMapping := {[ str "A" := str "90"; str "B" := str "80" ]}.

(** A mapping with a rule for the word late. *)
Definition lateMapping : GradeMapping := {[ str "LATE" := str "50" ]}.

(** * Properties *)

(** ** Strings *)

Lemma streq_eq (s t : jsstring) : streq s t = true <-> s = t.
Proof. unfold streq. apply bool_decide_eq_true. Qed.

Lemma streq_neq (s t : jsstring) : streq s t = false <-> s <> t.
Proof. unfold streq. apply bool_decide_eq_false. Qed.

Lemma truthy_false (s : jsstring) : truthy s = false <-> s = [].
Proof. destruct s; simpl; split; congruence. Qed.

Lemma truthy_true (s : jsstring) : truthy s = true <-> s <> [].
Proof. destruct s; simpl; split; congruence. Qed.

Lemma startsWith_app (p s : jsstring) : startsWith (p ++ s) p = true.
Proof. induction p as [|c p IH]; simpl; [done|]. by rewrite N.eqb_refl. Qed.

Lemma startsWith_prefix (s p : jsstring) : startsWith s p = true -> exists r, s = p ++ r.
Proof.
  revert s. induction p as [|c p IH]; intros s H; simpl in *.
  - by exists s.
  - destruct s as [|d s]; [done|].
    apply andb_true_iff in H as [Hc Hs]. apply N.eqb_eq in Hc as ->.
    destruct (IH _ Hs) as [r ->]. by exists r.
Qed.

Lemma endsWith_suffix (s p : jsstring) : endsWith s p = true -> exists r, s = r ++ p.
Proof.
  unfold endsWith. intros H. apply startsWith_prefix in H as [r Hr].
  exists (reverse r). apply (inj reverse). by rewrite reverse_app, reverse_involutive.
Qed.

(** The replacement of a final [.0] by [.0] changes nothing. *)
Lemma replaceDotZero_id (s : jsstring) : replaceDotZero s = s.
Proof.
  unfold replaceDotZero. destruct (endsWith s (str ".0")) eqn:E; [|done].
  apply endsWith_suffix in E as [r ->].
  rewrite length_app. simpl length.
  replace (length r + 2 - 2) with (length r) by lia.
  by rewrite take_app_length.
Qed.

Lemma endsWith_app (s p : jsstring) : endsWith (s ++ p) p = true.
Proof. unfold endsWith. rewrite reverse_app. apply startsWith_app. Qed.

Lemma trimmed_eq (s : jsstring) : trimmed s = true -> trim s = s.
Proof. apply streq_eq. Qed.

Lemma truthy_streq (s : jsstring) : truthy s = negb (streq s []).
Proof. by destruct s. Qed.

Lemma trimStart_idemp (s : jsstring) : trimStart (trimStart s) = trimStart s.
Proof.
  induction s as [|c s IH]; [done|]. simpl.
  destruct (isWhiteSpace c) eqn:E; [done|]. simpl. by rewrite E.
Qed.

Lemma trimStart_length (s : jsstring) : length (trimStart s) <= length s.
Proof.
  induction s as [|c s IH]; simpl; [lia|]. destruct (isWhiteSpace c); simpl; lia.
Qed.

Lemma trimStart_fixed_head (c : N) (s : jsstring) :
  trimStart (c :: s) = c :: s <-> isWhiteSpace c = false.
Proof.
  simpl. destruct (isWhiteSpace c) eqn:E; split; try done.
  intros H. pose proof (trimStart_length s) as Hlen. rewrite H in Hlen. simpl in Hlen. lia.
Qed.

(** What [trimStart] removes is a prefix. *)
Lemma trimStart_suffix (s : jsstring) : exists ws, s = ws ++ trimStart s.
Proof.
  induction s as [|c s [ws IH]]; [by exists []|]. simpl.
  destruct (isWhiteSpace c).
  - exists (c :: ws). simpl. by f_equal.
  - by exists [].
Qed.

Lemma trimEnd_prefix (s : jsstring) : exists ws, s = trimEnd s ++ ws.
Proof.
  unfold trimEnd. destruct (trimStart_suffix (reverse s)) as [ws Hws].
  exists (reverse ws). rewrite <- reverse_app, <- Hws. by rewrite reverse_involutive.
Qed.

Lemma trimStart_trimEnd (s : jsstring) :
  trimStart s = s -> trimStart (trimEnd s) = trimEnd s.
Proof.
  intros Hs. destruct (trimEnd_prefix s) as [ws Hws].
  destruct (trimEnd s) as [|c r]; [done|].
  apply trimStart_fixed_head. rewrite Hws in Hs. simpl app in Hs.
  by apply trimStart_fixed_head in Hs.
Qed.

Lemma trimEnd_idemp (s : jsstring) : trimEnd (trimEnd s) = trimEnd s.
Proof. unfold trimEnd. by rewrite reverse_involutive, trimStart_idemp. Qed.

Lemma trim_idemp (s : jsstring) : trim (trim s) = trim s.
Proof.
  unfold trim. rewrite (trimStart_trimEnd (trimStart s)) by apply trimStart_idemp.
  apply trimEnd_idemp.
Qed.

Lemma trimmed_trim (s : jsstring) : trimmed (trim s) = true.
Proof. apply streq_eq, trim_idemp. Qed.

(** ** Loops *)

(** A loop that pushes at most one element per iteration collects, in
    order, what the iterations push. *)
Lemma fold_left_push {A B} (f : A -> option B) (step : list B -> A -> list B)
  (l : list A) (acc : list B) :
  (forall acc x, step acc x = match f x with Some y => acc ++ [y] | None => acc end) ->
  fold_left step l acc = acc ++ omap f l.
Proof.
  intros Hstep. revert acc. induction l as [|x l IH]; intros acc; simpl.
  - by rewrite app_nil_r.
  - rewrite IH, Hstep. destruct (f x); [|done]. by rewrite <- app_assoc.
Qed.

(** A loop that runs an inner pushing loop per iteration. *)
Lemma fold_left_push_nested {A B} (g : A -> list B) (step : list B -> A -> list B)
  (l : list A) (acc : list B) :
  (forall acc x, step acc x = acc ++ g x) ->
  fold_left step l acc = acc ++ flat_map g l.
Proof.
  intros Hstep. revert acc. induction l as [|x l IH]; intros acc; simpl.
  - by rewrite app_nil_r.
  - by rewrite IH, Hstep, <- app_assoc.
Qed.

Lemma filter_all {A} (P : A -> Prop) `{forall x, Decision (P x)} (l : list A) :
  (forall x, x ∈ l -> P x) -> filter P l = l.
Proof.
  induction l as [|x l IH]; intros Hall; [done|].
  rewrite filter_cons, decide_True by (apply Hall; by left).
  f_equal. apply IH. intros y Hy. apply Hall. by right.
Qed.

(** ** Runs on the reference host *)

Example parseCSVLine_ex1 :
  parseCSVLine (str " a ," ++ [QUOTE] ++ str "b,c" ++ [QUOTE] ++ str ","
                ++ [QUOTE] ++ str "x" ++ [QUOTE; QUOTE] ++ str "y" ++ [QUOTE] ++ str ",")
  = [str "a"; str "b,c"; str "x" ++ [QUOTE] ++ str "y"; []].
Proof. vm_compute. reflexivity. Qed.

Example ref_parseFloat_ex :
  map (fun s => ref_toFixed1 (ref_parseFloat (str s)))
      ["12"; " 7.25"; "-3.14abc"; ".5"; "5."; "A"; "."; "1e2"; "0.05"; "Infinity"]%string
  = map str ["12.0"; "7.3"; "-3.1"; "0.5"; "5.0"; "NaN"; "NaN"; "100.0"; "0.1"; "Infinity"]%string.
Proof. vm_compute. reflexivity. Qed.

Example sample_processed :
  map (fun r => (StudentName r, AssignmentName r, Marks r, TotalMarksPossible r))
      (@processClassInToGradebook refHost sampleTable (str "2024-03-05") {[ str "A" := str "90" ]})
  = [ (str "Amy", str "HW1", str "8.0", str "10.0");
      (str "Amy", str "Quiz", str "18.0", str "20.0");
      (str "Bob", str "HW1", [], str "10.0");
      (str "Bob", str "Quiz", str "15.5", str "20.0") ].
Proof. vm_compute. reflexivity. Qed.

Example sample_dates :
  map AssignmentDate (@processClassInToGradebook refHost sampleTable (str "2024-03-05") ∅)
  = replicate 4 (str "05/03/2024").
Proof. vm_compute. reflexivity. Qed.

(** Five rows of junk above the header row. *)
Example findHeaderRowIndex_after_junk :
  findHeaderRowIndex
    (map row_of [["Export"]; ["Class 7B"]; [""; "x"]; ["Term 2"]; ["--"];
                 ["Student Name"; "HW1"]; ["Max"; "10"]]%string)
  = 5.
Proof. vm_compute. reflexivity. Qed.

(** The marks of the rules, out of 50, in a pure status column and in a mixed
    column whose average is 72.3. *)
Example resolveMark_rules :
  let pure := {| type := PURE_STATUS; average := ref_ofNat 0 |} in
  let mixed := {| type := MIXED; average := RFin (723 # 10) |} in
  let total := ref_parseFloat (str "50") in
  let gm : GradeMapping := {[ str "A" := str "90" ]} in
  map (fun c => @resolveMark refHost pure total c gm)
      [s_submitted; s_not_submitted; s_resubmitted; str "-"; str "a"; str "41.26"; str "late"]
  = [str "50.0"; str "0"; str "30.0"; []; str "45.0"; str "41.3"; []]
  /\ map (fun c => @resolveMark refHost mixed total c gm)
         [s_submitted; s_not_submitted; s_resubmitted; str "-"; str "a"]
     = [str "72.3"; str "0"; []; []; str "45.0"].
Proof. split; vm_compute; reflexivity. Qed.

(** ** The line parser *)

Lemma parseCSVLine_loop_scanLine (line chars pre : jsstring) (st : LineState) :
  line = pre ++ chars -> startValueIndex st <= length pre ->
  let st' := parseCSVLine_loop line st (length pre) chars in
  result st' ++ [finishValue (drop (startValueIndex st') line)]
  = scanLine (drop (startValueIndex st) pre) (inQuotes st) (result st) chars.
Proof.
  revert pre st. induction chars as [|c chars IH]; intros pre st Hline Hstart; simpl.
  - subst line. by rewrite app_nil_r.
  - assert (Hline' : line = (pre ++ [c]) ++ chars) by (by rewrite <- app_assoc).
    assert (Hlen : length (pre ++ [c]) = length pre + 1) by (rewrite length_app; simpl; lia).
    rewrite <- Hlen. unfold parseCSVLine_step.
    destruct (c =? QUOTE)%N.
    + rewrite (IH (pre ++ [c])); simpl; [|done|lia]. by rewrite drop_app_le.
    + destruct ((c =? COMMA)%N && negb (inQuotes st)).
      * rewrite (IH (pre ++ [c])); simpl; [|done|lia].
        rewrite drop_ge by lia. do 3 f_equal.
        unfold substring. rewrite Hline, drop_app_le by done.
        rewrite take_app_length'; [done|]. rewrite length_drop. lia.
      * rewrite (IH (pre ++ [c])); [|done|lia]. by rewrite drop_app_le.
Qed.

Lemma parseCSVLine_scanLine (line : jsstring) : parseCSVLine line = scanLine [] false [] line.
Proof.
  unfold parseCSVLine. cbv zeta.
  apply (parseCSVLine_loop_scanLine line line []
           {| result := []; startValueIndex := 0; inQuotes := false |}); simpl; [done|lia].
Qed.

Lemma scanLine_field (f rest cur : jsstring) (inQ inQ' : bool) (res : list jsstring) :
  fieldEnd inQ f = Some inQ' ->
  scanLine cur inQ res (f ++ rest) = scanLine (cur ++ f) inQ' res rest.
Proof.
  revert cur inQ. induction f as [|c f IH]; intros cur inQ H; simpl in *.
  - injection H as ->. by rewrite app_nil_r.
  - destruct (c =? QUOTE)%N.
    + rewrite (IH _ _ H). by rewrite <- app_assoc.
    + destruct ((c =? COMMA)%N && negb inQ); [done|].
      rewrite (IH _ _ H). by rewrite <- app_assoc.
Qed.

Lemma scanLine_field_comma (f rest : jsstring) (res : list jsstring) :
  fieldEnd false f = Some false ->
  scanLine [] false res (f ++ [COMMA] ++ rest) = scanLine [] false (res ++ [finishValue f]) rest.
Proof. intros H. by rewrite (scanLine_field _ _ _ _ _ _ H). Qed.

Lemma scanLine_field_last (f : jsstring) (res : list jsstring) :
  fieldEnd false f = Some false ->
  scanLine [] false res f = res ++ [finishValue f].
Proof.
  intros H. rewrite <- (app_nil_r f) at 1. by rewrite (scanLine_field _ _ _ _ _ _ H).
Qed.

Lemma fieldEnd_app (f g : jsstring) (inQ : bool) :
  fieldEnd inQ (f ++ g) = match fieldEnd inQ f with Some q => fieldEnd q g | None => None end.
Proof.
  revert inQ. induction f as [|c f IH]; intros inQ; simpl; [done|].
  destruct (c =? QUOTE)%N; [apply IH|]. destruct (_ && _); [done|apply IH].
Qed.

Lemma fieldEnd_doubleQuotes (v : jsstring) : fieldEnd true (doubleQuotes v) = Some true.
Proof.
  induction v as [|c v IH]; simpl; [done|].
  destruct (c =? QUOTE)%N eqn:E; simpl; [done|]. by rewrite E, andb_false_r.
Qed.

Lemma fieldEnd_inside (s : jsstring) : noQuote s = true -> fieldEnd true s = Some true.
Proof.
  induction s as [|c s IH]; simpl; [done|]. intros [Hc Hs]%andb_true_iff.
  apply negb_true_iff in Hc. rewrite Hc, andb_false_r. by apply IH.
Qed.

Lemma fieldEnd_plain (s : jsstring) :
  noQuote s = true -> noComma s = true -> fieldEnd false s = Some false.
Proof.
  induction s as [|c s IH]; simpl; [done|].
  intros [Hc Hs]%andb_true_iff [Hc' Hs']%andb_true_iff.
  apply negb_true_iff in Hc, Hc'. rewrite Hc, Hc'. simpl. by apply IH.
Qed.

Lemma fieldEnd_quoted (m : jsstring) :
  fieldEnd true m = Some true -> fieldEnd false ([QUOTE] ++ m ++ [QUOTE]) = Some false.
Proof. intros H. simpl. by rewrite fieldEnd_app, H. Qed.

Lemma undoubleQuotes_doubleQuotes (v : jsstring) : undoubleQuotes (doubleQuotes v) = v.
Proof.
  induction v as [|c v IH]; [done|]. simpl doubleQuotes.
  destruct (c =? QUOTE)%N eqn:E.
  - apply N.eqb_eq in E as ->. simpl. by rewrite IH.
  - destruct (doubleQuotes v) as [|d w] eqn:Ev.
    + destruct v as [|c' v']; [done|]. simpl in Ev. by destruct (c' =? QUOTE)%N.
    + simpl. rewrite E. simpl. f_equal. exact IH.
Qed.

Lemma undoubleQuotes_noQuote (s : jsstring) : noQuote s = true -> undoubleQuotes s = s.
Proof.
  induction s as [|c s IH]; [done|]. simpl noQuote. intros [Hc Hs]%andb_true_iff.
  apply negb_true_iff in Hc. specialize (IH Hs).
  destruct s as [|d s']; [done|].
  change (undoubleQuotes (c :: d :: s'))
    with (if (c =? QUOTE)%N && (d =? QUOTE)%N then QUOTE :: undoubleQuotes s'
          else c :: undoubleQuotes (d :: s')).
  by rewrite Hc, IH.
Qed.

Lemma unquote_quoted (m : jsstring) : unquote ([QUOTE] ++ m ++ [QUOTE]) = undoubleQuotes m.
Proof.
  unfold unquote.
  replace (startsWith ([QUOTE] ++ m ++ [QUOTE]) [QUOTE]) with true by (symmetry; apply startsWith_app).
  rewrite (app_assoc [QUOTE] m [QUOTE]), endsWith_app. simpl andb. cbv iota.
  f_equal. unfold slice_1_m1. rewrite <- app_assoc. simpl.
  rewrite length_app, drop_0. simpl. rewrite take_app_length'; [done|lia].
Qed.

Lemma unquote_noQuote (s : jsstring) : noQuote s = true -> unquote s = s.
Proof.
  unfold unquote. destruct s as [|c s]; [done|]. simpl noQuote. intros [Hc _]%andb_true_iff.
  apply negb_true_iff in Hc. cbn [startsWith]. rewrite N.eqb_sym in Hc. by rewrite Hc.
Qed.

Lemma scanLine_trimmed (cur : jsstring) (inQ : bool) (res : list jsstring) (chars : jsstring) :
  Forall (fun c => trimmed c = true) res ->
  Forall (fun c => trimmed c = true) (scanLine cur inQ res chars).
Proof.
  revert cur inQ res. induction chars as [|c chars IH]; intros cur inQ res Hres; simpl.
  - apply Forall_app. split; [done|]. apply Forall_singleton, trimmed_trim.
  - destruct (c =? QUOTE)%N; [by apply IH|].
    destruct (_ && _); [|by apply IH].
    apply IH, Forall_app. split; [done|]. apply Forall_singleton, trimmed_trim.
Qed.

(** ** The parsed table *)

Lemma length_padRow (n : nat) (row : list jsstring) :
  length (padRow n row) = max n (length row).
Proof.
  unfold padRow. destruct (Nat.ltb_spec (length row) n).
  - rewrite length_app, length_replicate. lia.
  - lia.
Qed.

(** What the normalisation does give: no row is narrower than the first one,
    and a row that was not wider than the first one has its width. *)
Lemma parseCSV_rows_at_least_header (content : jsstring) (row : list jsstring) :
  row ∈ data (parseCSV content) ->
  length (headers (parseCSV content)) <= length row.
Proof.
  unfold parseCSV.
  destruct (length (filter _ (splitLines content)) =? 0) eqn:E; simpl; [by intros ?%elem_of_nil|].
  set (rows := map parseCSVLine _).
  intros Hrow. apply list_elem_of_fmap in Hrow as (r & -> & Hr).
  rewrite length_padRow.
  destruct rows as [|r0 rows']; simpl; [lia|].
  rewrite length_padRow. lia.
Qed.

(** X6. Every cell of the table [parseCSV] returns has no white space at its
    ends: the parser trims the values, and pads with empty strings. *)
Lemma parseCSV_cells_trimmed (content : jsstring) (row : list jsstring) (c : jsstring) :
  row ∈ data (parseCSV content) -> c ∈ row -> trimmed c = true.
Proof.
  unfold parseCSV.
  destruct (length (filter _ (splitLines content)) =? 0); simpl; [by intros ?%elem_of_nil|].
  intros Hrow Hc. apply list_elem_of_fmap in Hrow as (r & -> & Hr).
  apply list_elem_of_fmap in Hr as (line & -> & _).
  unfold padRow in Hc.
  assert (Hline : Forall (fun c => trimmed c = true) (parseCSVLine line)).
  { rewrite parseCSVLine_scanLine. by apply scanLine_trimmed. }
  rewrite Forall_forall in Hline.
  destruct (_ <? _); [|by apply Hline].
  apply elem_of_app in Hc as [Hc|Hc]; [by apply Hline|].
  apply elem_of_replicate in Hc as [-> _]. done.
Qed.

(** C6, at the input where it fails: the text of the two lines [a] and [b,c].
    The second row parses into two cells, the first row has one, and the
    normalisation of [parseCSV], which only pads the rows that are too short,
    leaves the second row wider than the first. *)
Theorem parseCSV_keeps_wider_row :
  data (parseCSV (text [str "a"; str "b,c"])) = [[str "a"]; [str "b"; str "c"]]
  /\ headers (parseCSV (text [str "a"; str "b,c"])) = [str "a"]
  /\ map length (data (parseCSV (text [str "a"; str "b,c"]))) = [1; 2].
Proof. repeat split; vm_compute; reflexivity. Qed.

(** ** The emitted text *)

(** C7, at the input where it fails. The parser reads the student name
    A, double quote, B from [quotedNameTable]; the emitter writes it between
    quotes with its quote not doubled, where an assignment name has its
    quotes doubled. The date, which is the one of the reference host, is
    written without quotes. *)
Theorem generateCSVContent_student_name_quote_kept :
  let rows := @processClassInToGradebook refHost (parseCSV quotedNameTable) (str "2024-03-05") ∅ in
  let studentName := str "A" ++ [QUOTE] ++ str "B" in
  map StudentName rows = [studentName]
  /\ generateCSVContent rows
     = text [ str "Student Name,Assignment Name,Assignment Date,Category,Marks,Total Marks Possible";
              [QUOTE] ++ str "A" ++ [QUOTE] ++ str "B" ++ [QUOTE; COMMA]
              ++ [QUOTE] ++ str "HW" ++ [QUOTE] ++ str ",05/03/2024,"
              ++ [QUOTE] ++ str "Coursework" ++ [QUOTE] ++ str ",7.0,10.0" ]
  /\ map (fun r => csvRow r !! 0) rows = [Some ([QUOTE] ++ studentName ++ [QUOTE])]
  /\ [QUOTE] ++ studentName ++ [QUOTE] <> [QUOTE] ++ doubleQuotes studentName ++ [QUOTE].
Proof. repeat split; vm_compute; first [reflexivity | discriminate]. Qed.

(** ** Reading back an emitted line *)

Lemma marks_field (s : jsstring) : (if truthy s then s else []) = s.
Proof. by destruct s. Qed.

Lemma finishValue_quoted_doubled (v : jsstring) :
  trimmed v = true -> finishValue ([QUOTE] ++ doubleQuotes v ++ [QUOTE]) = v.
Proof.
  intros Hv. unfold finishValue.
  by rewrite unquote_quoted, undoubleQuotes_doubleQuotes, trimmed_eq.
Qed.

Lemma finishValue_quoted_plain (s : jsstring) :
  trimmed s = true -> noQuote s = true -> finishValue ([QUOTE] ++ s ++ [QUOTE]) = s.
Proof.
  intros Hs Hq. unfold finishValue.
  by rewrite unquote_quoted, undoubleQuotes_noQuote, trimmed_eq.
Qed.

Lemma finishValue_plain (s : jsstring) : plainField s = true -> finishValue s = s.
Proof.
  unfold plainField. intros [[Ht Hq]%andb_true_iff _]%andb_true_iff.
  unfold finishValue. by rewrite unquote_noQuote, trimmed_eq.
Qed.

Lemma fieldEnd_plainField (s : jsstring) : plainField s = true -> fieldEnd false s = Some false.
Proof.
  unfold plainField. intros [[_ Hq]%andb_true_iff Hc]%andb_true_iff. by apply fieldEnd_plain.
Qed.

(** Take a record whose student name, assignment name and category have no
    white space at their ends, whose student name and category hold no
    double quote, and whose date, mark and total have no white space at
    their ends, no quote and no comma. The emitter writes the two names
    between double quotes, the quotes of the assignment name doubled, and
    the line parser applied to the emitted line of the record returns the
    six values of the record: a name with a comma is read back as it was,
    and so is an assignment name with double quotes. *)
Lemma emitted_line_reads_back (r : TargetRow) :
  trimmed (StudentName r) = true -> noQuote (StudentName r) = true ->
  trimmed (AssignmentName r) = true ->
  trimmed (Category r) = true -> noQuote (Category r) = true ->
  plainField (AssignmentDate r) = true ->
  plainField (Marks r) = true ->
  plainField (TotalMarksPossible r) = true ->
  generateCSVContent [r] = join [COMMA] csvHeaders ++ [LF] ++ join [COMMA] (csvRow r)
  /\ csvRow r !! 0 = Some ([QUOTE] ++ StudentName r ++ [QUOTE])
  /\ csvRow r !! 1 = Some ([QUOTE] ++ doubleQuotes (AssignmentName r) ++ [QUOTE])
  /\ parseCSVLine (join [COMMA] (csvRow r))
     = [StudentName r; AssignmentName r; AssignmentDate r; Category r; Marks r;
        TotalMarksPossible r].
Proof.
  intros Hst Hsq Hat Hct Hcq Hd Hm Ht.
  split; [reflexivity|]. split; [reflexivity|]. split; [reflexivity|].
  rewrite parseCSVLine_scanLine. unfold csvRow. cbn [join]. rewrite marks_field.
  rewrite scanLine_field_comma by (by apply fieldEnd_quoted, fieldEnd_inside).
  rewrite scanLine_field_comma by (apply fieldEnd_quoted, fieldEnd_doubleQuotes).
  rewrite scanLine_field_comma by (by apply fieldEnd_plainField).
  rewrite scanLine_field_comma by (by apply fieldEnd_quoted, fieldEnd_inside).
  rewrite scanLine_field_comma by (by apply fieldEnd_plainField).
  rewrite scanLine_field_last by (by apply fieldEnd_plainField).
  rewrite finishValue_quoted_plain by done.
  rewrite finishValue_quoted_doubled by done.
  rewrite finishValue_quoted_plain by done.
  by rewrite !finishValue_plain.
Qed.

(** What is read before a comma outside quotes stays read. *)
Lemma scanLine_result_prefix (cur : jsstring) (inQ : bool) (res : list jsstring)
  (chars : jsstring) :
  exists rest, scanLine cur inQ res chars = res ++ rest.
Proof.
  revert cur inQ res. induction chars as [|c chars IH]; intros cur inQ res; simpl.
  - by eexists.
  - destruct (c =? QUOTE)%N; [apply IH|]. destruct (_ && _); [|apply IH].
    destruct (IH [] inQ (res ++ [finishValue cur])) as [rest ->].
    exists (finishValue cur :: rest). by rewrite <- app_assoc.
Qed.

(** C9, at the input where it fails. The parser reads the student name
    a, double quote, comma, b from [quotedCommaNameTable]: a cell value that
    holds a comma. The emitter wraps it in double quotes and leaves the
    quote inside as it is, so the line parser applied to the emitted line
    ends the first cell at that quote and returns two cells instead of six,
    the first one the letter a; the table parsed from the emitted text has
    that row, padded. On every record with that student name, whatever its
    other values, the first cell read back is the letter a. An assignment
    name, whose quotes the emitter doubles, is read back
    ([emitted_line_reads_back]). *)
Theorem emitted_student_name_not_read_back :
  let rows := @processClassInToGradebook refHost (parseCSV quotedCommaNameTable)
                (str "2024-03-05") ∅ in
  let studentName := str "a" ++ [QUOTE] ++ str ",b" in
  let second := str "b" ++ [QUOTE; COMMA; QUOTE] ++ str "HW" ++ [QUOTE] ++ str ",05/03/2024,"
                ++ [QUOTE] ++ str "Coursework" ++ [QUOTE] ++ str ",7.0,10.0" in
  map StudentName rows = [studentName]
  /\ existsb (N.eqb COMMA) studentName = true
  /\ map (fun r => csvRow r !! 0) rows = [Some ([QUOTE] ++ studentName ++ [QUOTE])]
  /\ map (fun r => parseCSVLine (join [COMMA] (csvRow r))) rows = [[str "a"; second]]
  /\ data (parseCSV (generateCSVContent rows)) = [csvHeaders; [str "a"; second; []; []; []; []]]
  /\ str "a" <> studentName
  /\ forall r : TargetRow,
       StudentName r = studentName ->
       exists rest, parseCSVLine (join [COMMA] (csvRow r)) = str "a" :: rest.
Proof.
  repeat split; try (vm_compute; first [reflexivity | discriminate]).
  intros r Hr. rewrite parseCSVLine_scanLine. unfold csvRow. cbn [join]. rewrite Hr.
  change ((([QUOTE] ++ (str "a" ++ [QUOTE] ++ str ",b") ++ [QUOTE]) ++ [COMMA] ++ ?x))
    with (([QUOTE] ++ str "a" ++ [QUOTE]) ++ [COMMA] ++ (str "b" ++ [QUOTE] ++ [COMMA] ++ x)).
  rewrite scanLine_field_comma by reflexivity.
  destruct (scanLine_result_prefix [] false ([] ++ [finishValue ([QUOTE] ++ str "a" ++ [QUOTE])])
              (str "b" ++ [QUOTE] ++ [COMMA]
               ++ ([QUOTE] ++ doubleQuotes (AssignmentName r) ++ [QUOTE]) ++ [COMMA]
               ++ AssignmentDate r ++ [COMMA] ++ ([QUOTE] ++ Category r ++ [QUOTE]) ++ [COMMA]
               ++ (if truthy (Marks r) then Marks r else []) ++ [COMMA]
               ++ TotalMarksPossible r)) as [rest Hrest].
  exists rest. rewrite Hrest. reflexivity.
Qed.

(** ** The rendering of marks *)

(** A mark is empty, or the literal 0 of the two rules for cells that read
    [s_not_submitted], or what [toFixed(1)] writes for a number. *)
Lemma resolveMark_cases {host : Host} (stats : ColumnStat) (totalMarksNum : number)
  (rawMark : jsstring) (gradeMapping : GradeMapping) :
  resolveMark stats totalMarksNum rawMark gradeMapping = []
  \/ resolveMark stats totalMarksNum rawMark gradeMapping = str "0"
  \/ exists x : number, resolveMark stats totalMarksNum rawMark gradeMapping = toFixed1 x.
Proof.
  unfold resolveMark. cbv zeta.
  destruct (streq rawMark (str "-")); [by left|].
  assert (Havg : orElse (toFixed1 (average stats)) (str "0") = toFixed1 (average stats)).
  { unfold orElse. pose proof (toFixed1_nonempty (average stats)).
    by destruct (toFixed1 (average stats)). }
  destruct (type stats);
    repeat match goal with
      | |- context [if ?b then _ else _] => destruct b; simpl fst; simpl snd
      | |- context [match ?o with Some _ => _ | None => _ end] => destruct o
      end;
    rewrite ?replaceDotZero_id, ?Havg; eauto.
Qed.

(** C4, at the input where it fails. On every host, in a column of either
    kind and with every mapping, a cell that reads [s_not_submitted] gets
    the mark [0], written without a decimal place; the run on
    [notSubmittedTable] shows it in the record, next to a total that is
    written [10.0]. *)
Theorem not_submitted_mark_has_no_decimal :
  (forall (host : Host) (stats : ColumnStat) (totalMarksNum : number) (gradeMapping : GradeMapping),
      resolveMark stats totalMarksNum s_not_submitted gradeMapping = str "0")
  /\ oneDecimalPlace (str "0") = false
  /\ map (fun r => (Marks r, TotalMarksPossible r))
         (@processClassInToGradebook refHost (parseCSV notSubmittedTable) (str "2024-03-05") ∅)
     = [(str "0", str "10.0")].
Proof.
  split; [|split; vm_compute; reflexivity].
  intros host stats total gm. unfold resolveMark.
  destruct (type stats); reflexivity.
Qed.

(** ** The mapping update *)

Section Merge.
Context {host : Host}.

(** The mapping the loop builds, key by key: an old entry is kept, and a key
    that was absent is there, with the value 0, exactly when it is the upper
    case of a found status. *)
Lemma mergeStatus_fold_lookup (foundStatuses : list jsstring) (m : GradeMapping) (h : bool)
  (k : jsstring) :
  next (fold_left mergeStatus foundStatuses {| next := m; hasChanges := h |}) !! k
  = match m !! k with
    | Some v => Some v
    | None => if bool_decide (k ∈ map toUpperCase foundStatuses) then Some (str "0") else None
    end.
Proof.
  revert m h. induction foundStatuses as [|s l IH]; intros m h; simpl.
  - by destruct (m !! k).
  - unfold mergeStatus at 2. simpl.
    destruct (bool_decide (is_Some (m !! toUpperCase s))) eqn:E.
    + rewrite IH. destruct (m !! k) eqn:Ek; [done|].
      apply bool_decide_eq_true in E.
      assert (Hne : toUpperCase s <> k).
      { intros Heq. rewrite Heq, Ek in E. by destruct E. }
      destruct (bool_decide (k ∈ map toUpperCase l)) eqn:El.
      * rewrite bool_decide_eq_true_2; [done|]. apply bool_decide_eq_true in El. by right.
      * rewrite bool_decide_eq_false_2; [done|]. apply bool_decide_eq_false in El.
        intros [->|?]%elem_of_cons; done.
    + apply bool_decide_eq_false in E. rewrite IH.
      destruct (decide (toUpperCase s = k)) as [<-|Hne].
      * rewrite lookup_insert_eq.
        assert (m !! toUpperCase s = None) as -> by (by apply eq_None_not_Some).
        rewrite bool_decide_eq_true_2; [done|]. by left.
      * rewrite lookup_insert_ne by done. destruct (m !! k); [done|].
        destruct (bool_decide (k ∈ map toUpperCase l)) eqn:El.
        -- rewrite bool_decide_eq_true_2; [done|]. apply bool_decide_eq_true in El. by right.
        -- rewrite bool_decide_eq_false_2; [done|]. apply bool_decide_eq_false in El.
           intros [->|?]%elem_of_cons; done.
Qed.

(** When every found status already has its key, the loop changes nothing
    and leaves the flag as it was. *)
Lemma mergeStatus_fold_present (foundStatuses : list jsstring) (m : GradeMapping) (h : bool) :
  (forall s, s ∈ foundStatuses -> is_Some (m !! toUpperCase s)) ->
  fold_left mergeStatus foundStatuses {| next := m; hasChanges := h |}
  = {| next := m; hasChanges := h |}.
Proof.
  induction foundStatuses as [|s l IH]; intros Hall; simpl; [done|].
  unfold mergeStatus at 2. simpl.
  rewrite bool_decide_eq_true_2 by (apply Hall; by left).
  apply IH. intros s' Hs'. apply Hall. by right.
Qed.

(** Once up, the flag stays up. *)
Lemma mergeStatus_fold_flag_up (foundStatuses : list jsstring) (m : GradeMapping) :
  hasChanges (fold_left mergeStatus foundStatuses {| next := m; hasChanges := true |}) = true.
Proof.
  revert m. induction foundStatuses as [|s l IH]; intros m; simpl; [done|].
  unfold mergeStatus at 2. simpl. destruct (bool_decide _); apply IH.
Qed.

(** While the flag is down, the mapping of the loop is the initial one. *)
Lemma mergeStatus_fold_unchanged (foundStatuses : list jsstring) (m : GradeMapping) (h : bool) :
  hasChanges (fold_left mergeStatus foundStatuses {| next := m; hasChanges := h |}) = false ->
  next (fold_left mergeStatus foundStatuses {| next := m; hasChanges := h |}) = m.
Proof.
  revert m h. induction foundStatuses as [|s l IH]; intros m h; simpl; [done|].
  unfold mergeStatus at 2 4. simpl.
  destruct (bool_decide (is_Some (m !! toUpperCase s))) eqn:E; [apply IH|].
  by rewrite mergeStatus_fold_flag_up.
Qed.

Lemma updateGradeMapping_next (foundStatuses : list jsstring) (prev : GradeMapping) :
  updateGradeMapping foundStatuses prev = next (mergeStatuses foundStatuses prev).
Proof.
  unfold updateGradeMapping, mergeStatuses.
  destruct (hasChanges _) eqn:E; [done|]. symmetry. by apply mergeStatus_fold_unchanged.
Qed.

Lemma updateGradeMapping_lookup (foundStatuses : list jsstring) (prev : GradeMapping)
  (k : jsstring) :
  updateGradeMapping foundStatuses prev !! k
  = match prev !! k with
    | Some v => Some v
    | None => if bool_decide (k ∈ map toUpperCase foundStatuses) then Some (str "0") else None
    end.
Proof. rewrite updateGradeMapping_next. apply mergeStatus_fold_lookup. Qed.

(** C8. For every mapping [prev] and content, with [merged] the mapping after
    [handleFileSelect]: every entry of [prev] is in [merged] with its value;
    a key of [merged] that is not in [prev] is the upper case of a found
    status and has the value 0; and a second run on the same content from
    [merged] finds every status with its key present, so it adds no key
    (the flag [hasChanges] stays down) and returns [merged]. *)
Theorem handleFileSelect_only_adds_absent_keys (content : jsstring) (prev : GradeMapping) :
  let foundStatuses := getUniqueNonNumericMarks (parseCSV content) in
  let merged := handleFileSelect content prev in
  (forall k v, prev !! k = Some v -> merged !! k = Some v)
  /\ (forall k v, prev !! k = None -> merged !! k = Some v ->
        v = str "0" /\ exists status, status ∈ foundStatuses /\ k = toUpperCase status)
  /\ (forall status, status ∈ foundStatuses -> is_Some (merged !! toUpperCase status))
  /\ mergeStatuses foundStatuses merged = {| next := merged; hasChanges := false |}
  /\ handleFileSelect content merged = merged.
Proof.
  intros found merged. subst merged. unfold handleFileSelect. fold found.
  assert (Hpresent : forall status, status ∈ found ->
            is_Some (updateGradeMapping found prev !! toUpperCase status)).
  { intros s Hs. rewrite updateGradeMapping_lookup.
    destruct (prev !! toUpperCase s); [by eexists|].
    rewrite bool_decide_eq_true_2; [by eexists|].
    apply list_elem_of_fmap. by exists s. }
  assert (Hsecond : mergeStatuses found (updateGradeMapping found prev)
                    = {| next := updateGradeMapping found prev; hasChanges := false |}).
  { unfold mergeStatuses. by apply mergeStatus_fold_present. }
  split; [|split; [|split; [|split]]].
  - intros k v Hk. rewrite updateGradeMapping_lookup. by rewrite Hk.
  - intros k v Hk. rewrite updateGradeMapping_lookup, Hk.
    destruct (bool_decide _) eqn:E; [|done]. intros [= <-]. split; [done|].
    apply bool_decide_eq_true in E. apply list_elem_of_fmap in E as (s & -> & Hs). by exists s.
  - done.
  - done.
  - unfold updateGradeMapping at 1. by rewrite Hsecond.
Qed.

End Merge.

(** ** The classification of a column *)

Section Classification.
Context {host : Host}.

Lemma skipsRow_qualifies (row : list jsstring) : skipsRow row = negb (qualifies row).
Proof.
  unfold skipsRow, qualifies, streq. destruct (cell row 0) as [|c s]; [done|].
  simpl truthy. rewrite bool_decide_eq_false_2 by done. simpl.
  by rewrite negb_involutive.
Qed.

(** One row raises a flag exactly when its cell is such evidence, and never
    lowers one. *)
Lemma scanCell_flags (gradeMapping : GradeMapping) (assignment : ProcessedAssignment)
  (totalMarksNum : number) (sc : ColumnScan) (row : list jsstring) :
  let sc' := scanCell gradeMapping assignment totalMarksNum sc row in
  hasNumeric sc' || hasGrade sc' = true
  <-> hasNumeric sc || hasGrade sc = true \/ gradedEvidence assignment row.
Proof.
  unfold scanCell, gradedEvidence. rewrite skipsRow_qualifies. cbv zeta.
  set (raw := trim (cell row (originalIndex assignment))).
  destruct (qualifies row); simpl; [|intuition congruence].
  destruct (truthy raw) eqn:Et; simpl.
  2:{ apply truthy_false in Et. intuition congruence. }
  apply truthy_true in Et.
  destruct (streq raw (trim (name assignment))) eqn:En.
  { apply streq_eq in En. intuition congruence. }
  apply streq_neq in En.
  destruct (streq raw (str "-")) eqn:Eh.
  { apply streq_eq in Eh. intuition congruence. }
  apply streq_neq in Eh.
  destruct (isNaN (parseFloat raw)) eqn:Enan; simpl.
  - unfold STANDARD_GRADES_has. case_bool_decide as Eg; simpl.
    + rewrite orb_true_r. intuition congruence.
    + intuition congruence.
  - intuition congruence.
Qed.

Lemma scanCell_fold_flags (gradeMapping : GradeMapping) (assignment : ProcessedAssignment)
  (totalMarksNum : number) (rows : list (list jsstring)) (sc : ColumnScan) :
  let sc' := fold_left (scanCell gradeMapping assignment totalMarksNum) rows sc in
  hasNumeric sc' || hasGrade sc' = true
  <-> hasNumeric sc || hasGrade sc = true
      \/ exists row, row ∈ rows /\ gradedEvidence assignment row.
Proof.
  revert sc. induction rows as [|row rows IH]; intros sc; simpl.
  - split; [by left|]. intros [H|(row & Hin & _)]; [done|]. by apply elem_of_nil in Hin.
  - rewrite IH, scanCell_flags. split.
    + intros [[H|H]|(r & Hin & H)]; [by left| |].
      * right. exists row. split; [by left|done].
      * right. exists r. split; [by right|done].
    + intros [H|(r & Hin & H)]; [by left; left|].
      apply elem_of_cons in Hin as [->|Hin]; [by left; right|].
      right. by exists r.
Qed.

(** C3. The column of an assignment is classified [MIXED] exactly when some
    row of the student rows is a qualifying student whose trimmed cell in
    the column (not empty, not the hyphen, not the name of the assignment)
    parses as a number or is, in upper case, one of the standard grade
    letters; it is classified [PURE_STATUS] exactly when there is no such row;
    and the classification is the same for every two grade mappings. *)
Theorem column_classification (gradeMapping : GradeMapping)
  (studentDataRows : list (list jsstring)) (assignment : ProcessedAssignment) :
  let evidence := exists row, row ∈ studentDataRows /\ gradedEvidence assignment row in
  (type (analyzeColumn gradeMapping studentDataRows assignment) = MIXED <-> evidence)
  /\ (type (analyzeColumn gradeMapping studentDataRows assignment) = PURE_STATUS <-> ~ evidence)
  /\ (forall gradeMapping' : GradeMapping,
        type (analyzeColumn gradeMapping' studentDataRows assignment)
        = type (analyzeColumn gradeMapping studentDataRows assignment)).
Proof.
  intros evidence.
  assert (Hflags : forall gm : GradeMapping,
            type (analyzeColumn gm studentDataRows assignment) = MIXED <-> evidence).
  { intros gm. unfold analyzeColumn. cbv zeta. simpl type.
    destruct (scanCell_fold_flags gm assignment (parseFloat (totalMarks assignment))
                studentDataRows
                {| hasNumeric := false; hasGrade := false; valuesForAverage := [] |})
      as [H1 H2].
    destruct (hasNumeric _ || hasGrade _).
    - split; [intros _|done]. destruct (H1 eq_refl) as [Hf|?]; [simpl in Hf; discriminate|done].
    - split; [done|]. intros Hev. discriminate (H2 (or_intror Hev)). }
  split; [apply Hflags|]. split.
  - rewrite <- (Hflags gradeMapping).
    destruct (type (analyzeColumn gradeMapping studentDataRows assignment)); split; congruence.
  - intros gm'. pose proof (Hflags gm') as H1. pose proof (Hflags gradeMapping) as H2.
    destruct (type (analyzeColumn gm' studentDataRows assignment)),
             (type (analyzeColumn gradeMapping studentDataRows assignment)); try done.
    + assert (PURE_STATUS = MIXED) by (apply H1; by apply H2). done.
    + assert (PURE_STATUS = MIXED) by (apply H2; by apply H1). done.
Qed.

End Classification.

(** ** The discovery pass *)

Section Discovery.
Context {host : Host}.

Lemma setAdd_elem (raw t : jsstring) (uniqueSet : list jsstring) :
  t ∈ setAdd raw uniqueSet <-> t ∈ uniqueSet \/ t = raw.
Proof.
  unfold setAdd. case_bool_decide as E.
  - split; [by left|]. intros [?| ->]; done.
  - rewrite elem_of_app, list_elem_of_singleton. done.
Qed.

Lemma setAdd_NoDup (raw : jsstring) (uniqueSet : list jsstring) :
  NoDup uniqueSet -> NoDup (setAdd raw uniqueSet).
Proof.
  unfold setAdd. intros Hnd. case_bool_decide as E; [done|].
  apply NoDup_app. split; [done|]. split; [|apply NoDup_singleton].
  intros x Hx ->%list_elem_of_singleton. done.
Qed.

Lemma scanToken_tokenAt (headerRow row uniqueSet : list jsstring) (index : nat) :
  scanToken headerRow row uniqueSet index
  = match tokenAt headerRow row index with
    | Some raw => setAdd raw uniqueSet
    | None => uniqueSet
    end.
Proof.
  unfold scanToken, tokenAt. cbv zeta.
  repeat match goal with |- context [if ?b then _ else _] => destruct b end; reflexivity.
Qed.

Lemma scanToken_fold_elem (headerRow row : list jsstring) (indices : list nat)
  (uniqueSet : list jsstring) (t : jsstring) :
  t ∈ fold_left (scanToken headerRow row) indices uniqueSet
  <-> t ∈ uniqueSet \/ exists index, index ∈ indices /\ tokenAt headerRow row index = Some t.
Proof.
  revert uniqueSet. induction indices as [|i indices IH]; intros uniqueSet; simpl.
  - split; [by left|]. intros [?|(i & Hi & _)]; [done|]. by apply elem_of_nil in Hi.
  - rewrite IH, scanToken_tokenAt. split.
    + intros [Ht|(j & Hj & Htok)].
      * destruct (tokenAt headerRow row i) as [raw|] eqn:E; [|by left].
        apply setAdd_elem in Ht as [?| ->]; [by left|].
        right. exists i. split; [by left|done].
      * right. exists j. split; [by right|done].
    + intros [Ht|(j & Hj & Htok)].
      * left. destruct (tokenAt headerRow row i); [|done]. apply setAdd_elem. by left.
      * apply elem_of_cons in Hj as [->|Hj].
        -- left. rewrite Htok. apply setAdd_elem. by right.
        -- right. by exists j.
Qed.

Lemma scanToken_fold_NoDup (headerRow row : list jsstring) (indices : list nat)
  (uniqueSet : list jsstring) :
  NoDup uniqueSet -> NoDup (fold_left (scanToken headerRow row) indices uniqueSet).
Proof.
  revert uniqueSet. induction indices as [|i indices IH]; intros uniqueSet Hnd; simpl; [done|].
  apply IH. rewrite scanToken_tokenAt. destruct (tokenAt _ _ _); [|done].
  by apply setAdd_NoDup.
Qed.

Lemma scanRow_fold_elem (headerRow : list jsstring) (indices : list nat)
  (rows : list (list jsstring)) (uniqueSet : list jsstring) (t : jsstring) :
  t ∈ fold_left (scanRow headerRow indices) rows uniqueSet
  <-> t ∈ uniqueSet
      \/ exists row index, row ∈ rows /\ qualifies row = true /\ index ∈ indices
                           /\ tokenAt headerRow row index = Some t.
Proof.
  revert uniqueSet. induction rows as [|row rows IH]; intros uniqueSet; simpl.
  - split; [by left|]. intros [?|(r & i & Hr & _)]; [done|]. by apply elem_of_nil in Hr.
  - rewrite IH. unfold scanRow. rewrite skipsRow_qualifies.
    destruct (qualifies row) eqn:Eq; simpl.
    + rewrite scanToken_fold_elem. split.
      * intros [[?|(i & Hi & Htok)]|(r & i & Hr & Hq & Hi & Htok)]; [by left| |].
        -- right. exists row, i. repeat split; [by left|done..].
        -- right. exists r, i. repeat split; [by right|done..].
      * intros [?|(r & i & Hr & Hq & Hi & Htok)]; [by left; left|].
        apply elem_of_cons in Hr as [->|Hr].
        -- left. right. by exists i.
        -- right. by exists r, i.
    + split.
      * intros [?|(r & i & Hr & Hq & Hi & Htok)]; [by left|].
        right. exists r, i. repeat split; [by right|done..].
      * intros [?|(r & i & Hr & Hq & Hi & Htok)]; [by left|].
        apply elem_of_cons in Hr as [->|Hr]; [congruence|].
        right. by exists r, i.
Qed.

Lemma scanRow_fold_NoDup (headerRow : list jsstring) (indices : list nat)
  (rows : list (list jsstring)) (uniqueSet : list jsstring) :
  NoDup uniqueSet -> NoDup (fold_left (scanRow headerRow indices) rows uniqueSet).
Proof.
  revert uniqueSet. induction rows as [|row rows IH]; intros uniqueSet Hnd; simpl; [done|].
  apply IH. unfold scanRow. destruct (skipsRow row); [done|].
  by apply scanToken_fold_NoDup.
Qed.

End Discovery.

Section DiscoveryExact.
Context {host : Host}.

Lemma validIndices_omap (headerRow maxMarksRow : list jsstring) :
  validIndices headerRow maxMarksRow
  = omap (fun i => if truthy (cell headerRow i) && isNumeric maxMarksRow i then Some i else None)
         (seq 1 (length headerRow - 1)).
Proof.
  unfold validIndices. rewrite <- (app_nil_l (omap _ _)).
  apply fold_left_push. intros acc i. by destruct (_ && _).
Qed.

Lemma validIndices_elem (headerRow maxMarksRow : list jsstring) (i : nat) :
  i ∈ validIndices headerRow maxMarksRow <-> validColumn headerRow maxMarksRow i = true.
Proof.
  rewrite validIndices_omap, list_elem_of_omap. unfold validColumn, isNumeric, cleanMaxMarks.
  split.
  - intros (j & Hj & Hsome). apply elem_of_seq in Hj. rewrite truthy_streq in Hsome.
    destruct (negb (streq (cell headerRow j) []) && _) eqn:E; [|done].
    injection Hsome as ->. apply andb_true_iff in E as [-> E]. apply andb_true_iff in E as [-> ->].
    rewrite !andb_true_r. apply andb_true_iff. split.
    + apply Nat.leb_le. lia.
    + apply Nat.ltb_lt. lia.
  - intros H. apply andb_true_iff in H as [H Hnan]. apply andb_true_iff in H as [H Hclean].
    apply andb_true_iff in H as [H Hhead]. apply andb_true_iff in H as [Hlo Hhi].
    apply Nat.leb_le in Hlo. apply Nat.ltb_lt in Hhi.
    exists i. split; [apply elem_of_seq; lia|].
    by rewrite truthy_streq, Hhead, Hnan, Hclean.
Qed.

(** What [getUniqueNonNumericMarks] returns on every parsed table: no token
    twice, and exactly the trimmed cells of qualifying student rows in valid
    columns that are not empty, do not parse as a number, and are none of the
    trimmed header of the column, the hyphen, and the two category labels. *)
Lemma getUniqueNonNumericMarks_spec (parsedData : ParseResult) :
  let h := findHeaderRowIndex (data parsedData) in
  let headerRow := default [] (data parsedData !! h) in
  let maxMarksRow := default [] (data parsedData !! (h + 1)) in
  NoDup (getUniqueNonNumericMarks parsedData)
  /\ forall t,
       t ∈ getUniqueNonNumericMarks parsedData
       <-> exists row index,
             row ∈ drop (h + 3) (data parsedData) /\ qualifies row = true
             /\ validColumn headerRow maxMarksRow index = true
             /\ t = trim (cell row index) /\ t <> [] /\ isNaN (parseFloat t) = true
             /\ t <> trim (cell headerRow index)
             /\ t <> str "-" /\ t <> s_category_zh /\ t <> str "Category".
Proof.
  intros h headerRow maxMarksRow. unfold getUniqueNonNumericMarks. cbv zeta.
  fold h. fold headerRow. fold maxMarksRow.
  assert (Hshort : length (data parsedData) <= h + 1 -> drop (h + 3) (data parsedData) = []).
  { intros Hle. apply drop_ge. lia. }
  assert (Hnone : drop (h + 3) (data parsedData) = [] ->
            NoDup (@nil jsstring)
            /\ forall t, t ∈ @nil jsstring
               <-> exists row index,
                     row ∈ drop (h + 3) (data parsedData) /\ qualifies row = true
                     /\ validColumn headerRow maxMarksRow index = true
                     /\ t = trim (cell row index) /\ t <> [] /\ isNaN (parseFloat t) = true
                     /\ t <> trim (cell headerRow index)
                     /\ t <> str "-" /\ t <> s_category_zh /\ t <> str "Category").
  { intros ->. split; [constructor|]. intros t. split; [by intros ?%elem_of_nil|].
    intros (r & i & Hr & _). by apply elem_of_nil in Hr. }
  destruct (Nat.ltb_spec (length (data parsedData)) 2); [apply Hnone, Hshort; lia|].
  destruct (Nat.leb_spec (length (data parsedData)) (h + 1)); [by apply Hnone, Hshort|].
  split; [apply scanRow_fold_NoDup; constructor|].
  intros t. rewrite scanRow_fold_elem. split.
  - intros [Ht|(row & index & Hrow & Hq & Hi & Htok)]; [by apply elem_of_nil in Ht|].
    exists row, index. apply validIndices_elem in Hi.
    unfold tokenAt in Htok. cbv zeta in Htok.
    destruct (streq _ (trim (cell headerRow index))) eqn:E1; [done|].
    destruct (streq _ (str "-")) eqn:E2; [done|].
    destruct (streq _ s_category_zh) eqn:E3; [done|].
    destruct (streq _ (str "Category")) eqn:E4; [done|].
    destruct (truthy _) eqn:E5; [|done].
    destruct (isNaN _) eqn:E6; [|done].
    simpl in Htok. injection Htok as <-.
    apply streq_neq in E1, E2, E3, E4. apply truthy_true in E5. done.
  - intros (row & index & Hrow & Hq & Hi & -> & Hne & Hnan & Hh & H1 & H2 & H3).
    right. exists row, index. apply validIndices_elem in Hi.
    repeat split; [done..|]. unfold tokenAt. cbv zeta.
    apply streq_neq in Hh, H1, H2, H3. apply truthy_true in Hne.
    by rewrite Hh, H1, H2, H3, Hne, Hnan.
Qed.

(** C5, as amended. For every input text, the discovery pass returns a list
    without repetition whose members are exactly the trimmed, non-empty cell
    values found in valid assignment columns of qualifying student rows
    (the rows from the third after the header row on) for which [parseFloat]
    gives NaN and that are not the trimmed header of their column, the
    hyphen, or one of the two category labels. Standard grade letters are not
    left out. *)
Theorem getUniqueNonNumericMarks_exact (content : jsstring) :
  let parsed := parseCSV content in
  let h := findHeaderRowIndex (data parsed) in
  let headerRow := default [] (data parsed !! h) in
  let maxMarksRow := default [] (data parsed !! (h + 1)) in
  NoDup (getUniqueNonNumericMarks parsed)
  /\ forall t,
       t ∈ getUniqueNonNumericMarks parsed
       <-> exists row index,
             row ∈ drop (h + 3) (data parsed) /\ qualifies row = true
             /\ validColumn headerRow maxMarksRow index = true
             /\ t = trim (cell row index) /\ t <> [] /\ isNaN (parseFloat t) = true
             /\ t <> trim (cell headerRow index)
             /\ t <> str "-" /\ t <> s_category_zh /\ t <> str "Category".
Proof. intros parsed. apply getUniqueNonNumericMarks_spec. Qed.

End DiscoveryExact.

(** Both passes select the same columns. *)
Lemma identifyAssignments_indices {host : Host} (headerRow maxMarksRow : list jsstring) :
  map originalIndex (identifyAssignments headerRow maxMarksRow)
  = validIndices headerRow maxMarksRow.
Proof.
  rewrite validIndices_omap. unfold identifyAssignments.
  rewrite (fold_left_push
             (fun i => if truthy (cell headerRow i) && isNumeric maxMarksRow i
                       then Some {| name := cell headerRow i;
                                    totalMarks := cleanMaxMarks maxMarksRow i;
                                    originalIndex := i |}
                       else None)).
  - simpl. induction (seq 1 (length headerRow - 1)) as [|i l IH]; [done|].
    simpl. destruct (_ && _); simpl; [f_equal|]; exact IH.
  - intros acc i. cbv zeta. by destruct (_ && _).
Qed.

(** C5 fails as stated: on [gradeLetterTable] the discovery pass returns the
    standard grade letter A and nothing else. It does not return 12abc,
    which is neither purely numeric nor a grade letter but which
    [parseFloat] reads as 12, nor the hyphen, the repeated header and the
    category label, which its guards skip. *)
Lemma getUniqueNonNumericMarks_returns_grade_letter :
  @getUniqueNonNumericMarks refHost (parseCSV gradeLetterTable) = [str "A"]
  /\ STANDARD_GRADES_has (str "A") = true.
Proof. split; vm_compute; reflexivity. Qed.

(** ** The records of a run *)

Section Records.
Context {host : Host}.

Lemma rightmost_snoc (validAssignments : list ProcessedAssignment) (b : ProcessedAssignment)
  (nm : jsstring) :
  rightmost (validAssignments ++ [b]) nm
  = if decide (name b = nm) then Some (length validAssignments, b)
    else rightmost validAssignments nm.
Proof.
  unfold rightmost. rewrite imap_app, filter_app. simpl imap.
  rewrite filter_cons, filter_nil. simpl. rewrite Nat.add_0_r.
  destruct (decide (name b = nm)).
  - apply last_snoc.
  - by rewrite app_nil_r.
Qed.


Lemma rightmost_elem (validAssignments : list ProcessedAssignment) (a : ProcessedAssignment) :
  a ∈ validAssignments -> is_Some (rightmost validAssignments (name a)).
Proof.
  induction validAssignments as [|b va IH] using rev_ind; [by intros ?%elem_of_nil|].
  intros Ha. rewrite rightmost_snoc. destruct (decide (name b = name a)); [by eexists|].
  apply IH. apply elem_of_app in Ha as [?|Ha]; [done|].
  apply list_elem_of_singleton in Ha as ->. done.
Qed.

(** The dictionary of the statistics holds, under a name, the statistics of
    the rightmost valid assignment of that name. *)
Lemma analyzeColumns_lookup (gradeMapping : GradeMapping) (studentDataRows : list (list jsstring))
  (validAssignments : list ProcessedAssignment) (nm : jsstring) :
  analyzeColumns gradeMapping studentDataRows validAssignments !! nm
  = (fun ka => analyzeColumn gradeMapping studentDataRows (snd ka))
      <$> rightmost validAssignments nm.
Proof.
  unfold analyzeColumns.
  induction validAssignments as [|b va IH] using rev_ind; [done|].
  rewrite fold_left_app, rightmost_snoc. simpl.
  destruct (decide (name b = nm)) as [<-|Hne].
  - by rewrite lookup_insert_eq.
  - by rewrite lookup_insert_ne.
Qed.

Lemma drawDate_fold_count (workingDays : list jsstring)
  (validAssignments : list ProcessedAssignment) :
  snd (fold_left (drawDate workingDays) validAssignments (∅, 0)) = length validAssignments.
Proof.
  induction validAssignments as [|b va IH] using rev_ind; [done|].
  rewrite fold_left_app, length_app. simpl. rewrite IH. lia.
Qed.

(** The dictionary of the dates holds, under a name, the day drawn for the
    rightmost valid assignment of that name. *)
Lemma drawDates_lookup (workingDays : list jsstring)
  (validAssignments : list ProcessedAssignment) (nm : jsstring) :
  drawDates workingDays validAssignments !! nm
  = (fun ka => cell workingDays (randomIndex (fst ka) (length workingDays)))
      <$> rightmost validAssignments nm.
Proof.
  unfold drawDates.
  induction validAssignments as [|b va IH] using rev_ind; [done|].
  rewrite fold_left_app, rightmost_snoc. simpl. rewrite drawDate_fold_count.
  destruct (decide (name b = nm)) as [<-|Hne].
  - by rewrite lookup_insert_eq.
  - by rewrite lookup_insert_ne.
Qed.

End Records.

Section RecordsOfRun.
Context {host : Host}.

Lemma pushCell_recordFor (gradeMapping : GradeMapping) (studentDataRows : list (list jsstring))
  (workingDays : list jsstring) (fallbackDate : jsstring)
  (validAssignments : list ProcessedAssignment) (row : list jsstring)
  (results : list TargetRow) (assignment : ProcessedAssignment) :
  pushCell (analyzeColumns gradeMapping studentDataRows validAssignments)
    (drawDates workingDays validAssignments) fallbackDate gradeMapping row results assignment
  = match recordFor gradeMapping studentDataRows workingDays fallbackDate validAssignments
            row assignment with
    | Some r => results ++ [r]
    | None => results
    end.
Proof.
  unfold pushCell, recordFor. cbv zeta.
  destruct (streq _ _); [done|].
  rewrite analyzeColumns_lookup, drawDates_lookup.
  by destruct (rightmost validAssignments (name assignment)) as [[k keyed]|].
Qed.

(** The run, loop by loop: a skipped row gives nothing, another row gives
    the records of its cells in the order of the valid assignments. *)
Lemma processClassInToGradebook_records (parsedData : ParseResult) (selectedDate : jsstring)
  (gradeMapping : GradeMapping) :
  processClassInToGradebook parsedData selectedDate gradeMapping
  = recordsKeyedByName parsedData selectedDate gradeMapping.
Proof.
  unfold processClassInToGradebook, recordsKeyedByName. cbv zeta.
  fold (headerRowOf parsedData). fold (maxMarksRowOf parsedData).
  fold (studentDataRowsOf parsedData). fold (validAssignmentsOf parsedData).
  destruct (Nat.ltb_spec (length (data parsedData)) (findHeaderRowIndex (data parsedData) + 2)).
  - unfold studentDataRowsOf. rewrite drop_ge by lia. done.
  - rewrite <- (app_nil_l (flat_map _ _)). apply fold_left_push_nested.
    intros acc row. unfold pushRow. rewrite skipsRow_qualifies.
    destruct (qualifies row); simpl; [|by rewrite app_nil_r].
    apply fold_left_push. intros acc' a. apply pushCell_recordFor.
Qed.

End RecordsOfRun.

Section RunProperties.
Context {host : Host}.


Lemma recordFor_keys (gradeMapping : GradeMapping) (studentDataRows : list (list jsstring))
  (workingDays : list jsstring) (fallbackDate : jsstring)
  (validAssignments : list ProcessedAssignment) (row : list jsstring)
  (l : list ProcessedAssignment) :
  (forall a, a ∈ l -> a ∈ validAssignments) ->
  map (fun r => (StudentName r, AssignmentName r))
      (omap (recordFor gradeMapping studentDataRows workingDays fallbackDate
               validAssignments row) l)
  = map (fun a => (cell row 0, name a)) (filter (fun a => echoesHeader row a = false) l).
Proof.
  induction l as [|a l IH]; intros Hsub; [done|].
  simpl omap. rewrite filter_cons.
  assert (IH' := IH (fun b Hb => Hsub b (list_elem_of_further _ _ _ Hb))).
  unfold recordFor at 1. cbv zeta. fold (echoesHeader row a).
  destruct (decide (echoesHeader row a = false)) as [E|E].
  - rewrite E.
    destruct (rightmost_elem validAssignments a) as [[k keyed] ->]; [apply Hsub; by left|].
    simpl. f_equal. exact IH'.
  - apply not_false_is_true in E. rewrite E. exact IH'.
Qed.

Lemma records_keys_rows (gradeMapping : GradeMapping) (studentDataRows : list (list jsstring))
  (workingDays : list jsstring) (fallbackDate : jsstring)
  (validAssignments : list ProcessedAssignment) (rows : list (list jsstring)) :
  map (fun r => (StudentName r, AssignmentName r))
      (flat_map
         (fun row =>
            if qualifies row
            then omap (recordFor gradeMapping studentDataRows workingDays fallbackDate
                         validAssignments row) validAssignments
            else [])
         rows)
  = map (fun ra => (cell (fst ra) 0, name (snd ra)))
        (flat_map
           (fun row =>
              map (pair row) (filter (fun a => echoesHeader row a = false) validAssignments))
           (filter (fun row => qualifies row = true) rows)).
Proof.
  induction rows as [|row rows IH]; [done|].
  simpl flat_map. rewrite filter_cons, map_app, IH.
  destruct (qualifies row) eqn:Eq.
  - rewrite decide_True by done. simpl flat_map. rewrite map_app, map_map. f_equal.
    by apply recordFor_keys.
  - by rewrite decide_False by done.
Qed.

Lemma records_keys (parsedData : ParseResult) (selectedDate : jsstring)
  (gradeMapping : GradeMapping) :
  map (fun r => (StudentName r, AssignmentName r))
      (processClassInToGradebook parsedData selectedDate gradeMapping)
  = map (fun ra => (cell (fst ra) 0, name (snd ra))) (recordedPairs parsedData).
Proof.
  rewrite processClassInToGradebook_records. apply records_keys_rows.
Qed.

Lemma recordedPairs_length_le (parsedData : ParseResult) :
  length (recordedPairs parsedData)
  <= length (qualifyingStudents parsedData) * length (validAssignmentsOf parsedData).
Proof.
  unfold recordedPairs.
  induction (qualifyingStudents parsedData) as [|row rows IH]; [done|].
  simpl. rewrite length_app, length_map.
  pose proof (length_filter (fun a => echoesHeader row a = false) (validAssignmentsOf parsedData)).
  lia.
Qed.

Lemma recordedPairs_length_all (parsedData : ParseResult) :
  (forall row a, row ∈ qualifyingStudents parsedData -> a ∈ validAssignmentsOf parsedData ->
                 echoesHeader row a = false) ->
  length (recordedPairs parsedData)
  = length (qualifyingStudents parsedData) * length (validAssignmentsOf parsedData).
Proof.
  unfold recordedPairs.
  induction (qualifyingStudents parsedData) as [|row rows IH]; intros Hall; [done|].
  simpl. rewrite length_app, length_map, IH.
  - rewrite filter_all; [done|]. intros a Ha. apply Hall; [by left|done].
  - intros r a Hr Ha. apply Hall; [by right|done].
Qed.

(** C1, as amended. The run returns exactly one record per pair of a
    qualifying student and a valid assignment whose trimmed cell is not the
    trimmed name of the assignment (the guard at the head of the inner loop
    skips the others), in the order of the rows and, in a row, of the
    columns. So its length is the number of these pairs; it is at most the
    number of qualifying students times the number of valid assignments,
    and it is that product when no cell repeats the name of its column. *)
Theorem processClassInToGradebook_one_record_per_recorded_pair
  (parsedData : ParseResult) (selectedDate : jsstring) (gradeMapping : GradeMapping) :
  let results := processClassInToGradebook parsedData selectedDate gradeMapping in
  map (fun r => (StudentName r, AssignmentName r)) results
  = map (fun ra => (cell (fst ra) 0, name (snd ra))) (recordedPairs parsedData)
  /\ length results = length (recordedPairs parsedData)
  /\ length results
     <= length (qualifyingStudents parsedData) * length (validAssignmentsOf parsedData)
  /\ ((forall row a, row ∈ qualifyingStudents parsedData -> a ∈ validAssignmentsOf parsedData ->
                     echoesHeader row a = false) ->
      length results
      = length (qualifyingStudents parsedData) * length (validAssignmentsOf parsedData)).
Proof.
  intros results.
  assert (Hlen : length results = length (recordedPairs parsedData)).
  { rewrite <- (length_map (fun r => (StudentName r, AssignmentName r)) results).
    subst results. by rewrite records_keys, length_map. }
  split; [apply records_keys|]. split; [done|]. rewrite Hlen. split.
  - apply recordedPairs_length_le.
  - apply recordedPairs_length_all.
Qed.

End RunProperties.

(** Both records of Amy use the statistics of the right column, which is a
    pure status column: the submitted cell of the left column gets the total,
    not the average 5 of the left column. *)
Example twoColumnsOneName_marks :
  map (fun r => (StudentName r, Marks r))
      (@processClassInToGradebook refHost (parseCSV twoColumnsOneName) (str "2024-03-05") ∅)
  = [ (str "Amy", str "10.0"); (str "Amy", str "10.0");
      (str "Bob", str "5.0"); (str "Bob", []) ].
Proof. vm_compute. reflexivity. Qed.

(** C1 fails as stated: [echoTable] has one qualifying student and one valid
    assignment, and the run returns no record. *)
Lemma processClassInToGradebook_skips_header_echo :
  length (qualifyingStudents (parseCSV echoTable)) = 1
  /\ length (@validAssignmentsOf refHost (parseCSV echoTable)) = 1
  /\ @processClassInToGradebook refHost (parseCSV echoTable) (str "2024-03-05") ∅ = []
  /\ length (@processClassInToGradebook refHost (parseCSV echoTable) (str "2024-03-05") ∅)
     <> length (qualifyingStudents (parseCSV echoTable))
        * length (@validAssignmentsOf refHost (parseCSV echoTable)).
Proof. repeat split; vm_compute; first [reflexivity | discriminate]. Qed.

(** ** The mark of a submitted cell *)

Section Submitted.
Context {host : Host}.


(** The kind of a column, by its cells. *)
Lemma analyzeColumn_type_MIXED (gradeMapping : GradeMapping)
  (studentDataRows : list (list jsstring)) (assignment : ProcessedAssignment) :
  type (analyzeColumn gradeMapping studentDataRows assignment) = MIXED
  <-> exists row, row ∈ studentDataRows /\ gradedEvidence assignment row.
Proof.
  unfold analyzeColumn. cbv zeta. simpl type.
  destruct (scanCell_fold_flags gradeMapping assignment (parseFloat (totalMarks assignment))
              studentDataRows
              {| hasNumeric := false; hasGrade := false; valuesForAverage := [] |})
    as [H1 H2].
  destruct (hasNumeric _ || hasGrade _).
  - split; [intros _|done]. destruct (H1 eq_refl) as [Hf|?]; [simpl in Hf; discriminate|done].
  - split; [done|]. intros Hev. discriminate (H2 (or_intror Hev)).
Qed.

(** What one cell adds to the values of the average. *)
Lemma scanCell_accumulated (gradeMapping : GradeMapping) (assignment : ProcessedAssignment)
  (sc : ColumnScan) (row : list jsstring) :
  valuesForAverage (scanCell gradeMapping assignment (parseFloat (totalMarks assignment)) sc row)
  = valuesForAverage sc
    ++ match accumulated gradeMapping assignment row with Some v => [v] | None => [] end.
Proof.
  unfold scanCell, accumulated. cbv zeta. rewrite skipsRow_qualifies.
  destruct (qualifies row); simpl; [|by rewrite app_nil_r].
  rewrite truthy_streq.
  destruct (streq (trim (cell row (originalIndex assignment))) []); simpl;
    [by rewrite app_nil_r|].
  destruct (streq (trim (cell row (originalIndex assignment))) (trim (name assignment))) eqn:E;
    simpl; [by rewrite orb_true_r, app_nil_r|].
  rewrite orb_false_r.
  destruct (streq (trim (cell row (originalIndex assignment))) (str "-")); simpl;
    [by rewrite app_nil_r|].
  destruct (isNaN (parseFloat (trim (cell row (originalIndex assignment))))); simpl; [|done].
  assert (Hpush : forall values,
            pushMapped gradeMapping (toUpperCase (trim (cell row (originalIndex assignment))))
              (parseFloat (totalMarks assignment)) values
            = values
              ++ match
                   match gradeMapping !! toUpperCase (trim (cell row (originalIndex assignment)))
                   with
                   | Some mapped =>
                       if negb (streq mapped []) && negb (isNaN (parseFloat mapped))
                       then Some (num_mul (num_div (parseFloat mapped) (numOfNat 100))
                                          (parseFloat (totalMarks assignment)))
                       else None
                   | None => None
                   end
                 with Some v => [v] | None => [] end).
  { intros values. unfold pushMapped.
    destruct (gradeMapping !! _) as [mapped|]; [|by rewrite app_nil_r].
    rewrite truthy_streq. destruct (_ && _); [done|by rewrite app_nil_r]. }
  destruct (STANDARD_GRADES_has _); simpl; apply Hpush.
Qed.

Lemma scanCell_fold_accumulated (gradeMapping : GradeMapping) (assignment : ProcessedAssignment)
  (rows : list (list jsstring)) (sc : ColumnScan) :
  valuesForAverage
    (fold_left (scanCell gradeMapping assignment (parseFloat (totalMarks assignment))) rows sc)
  = valuesForAverage sc ++ omap (accumulated gradeMapping assignment) rows.
Proof.
  revert sc. induction rows as [|row rows IH]; intros sc; csimpl; [by rewrite app_nil_r|].
  rewrite IH, scanCell_accumulated, <- app_assoc.
  by destruct (accumulated gradeMapping assignment row).
Qed.

(** The average of a column is the mean of what its cells add. *)
Lemma analyzeColumn_average (gradeMapping : GradeMapping)
  (studentDataRows : list (list jsstring)) (assignment : ProcessedAssignment) :
  average (analyzeColumn gradeMapping studentDataRows assignment)
  = averageScore gradeMapping studentDataRows assignment.
Proof.
  unfold analyzeColumn, averageScore. cbv zeta. simpl average.
  rewrite scanCell_fold_accumulated. simpl valuesForAverage. rewrite app_nil_l.
  by destruct (omap _ _).
Qed.



End Submitted.

(** ** The run properties at work on the reference host *)

(** In [sampleTable] no cell repeats the header of its column: two
    qualifying students, two valid assignments, four records. *)
Lemma one_record_per_recorded_pair_witness :
  length (qualifyingStudents sampleTable) = 2
  /\ length (@validAssignmentsOf refHost sampleTable) = 2
  /\ length (@processClassInToGradebook refHost sampleTable (str "2024-03-05") ∅)
     = length (qualifyingStudents sampleTable) * length (@validAssignmentsOf refHost sampleTable).
Proof.
  split; [reflexivity|]. split; [reflexivity|].
  apply (@processClassInToGradebook_one_record_per_recorded_pair refHost sampleTable).
  intros row a Hrow Ha.
  assert (Hall : forallb (fun row => forallb (fun a => negb (echoesHeader row a))
                                       (@validAssignmentsOf refHost sampleTable))
                         (qualifyingStudents sampleTable) = true) by reflexivity.
  rewrite forallb_forall in Hall. apply list_elem_of_In, Hall in Hrow.
  rewrite forallb_forall in Hrow. apply list_elem_of_In, Hrow in Ha.
  by apply negb_true_iff.
Defined.




(** * Further properties *)

(** ** More on the line parser *)

Lemma noQuote_app (s t : jsstring) : noQuote (s ++ t) = noQuote s && noQuote t.
Proof. unfold noQuote. apply forallb_app. Qed.

Lemma scanLine_noQuote (chars cur : jsstring) (res : list jsstring) :
  noQuote cur = true -> noQuote chars = true ->
  scanLine cur false res chars = res ++ map trim (split_from COMMA cur chars).
Proof.
  revert cur res. induction chars as [|c chars IH]; intros cur res Hcur Hchars; simpl.
  - unfold finishValue. by rewrite unquote_noQuote.
  - simpl in Hchars. apply andb_true_iff in Hchars as [Hc Hchars].
    apply negb_true_iff in Hc. rewrite Hc.
    destruct (c =? COMMA)%N; simpl.
    + rewrite IH by done. unfold finishValue. rewrite unquote_noQuote by done.
      by rewrite <- app_assoc.
    + apply IH; [|done]. rewrite noQuote_app, Hcur. simpl. by rewrite Hc.
Qed.

(** X1. On a line without a double quote, [parseCSVLine] is the split at the
    commas followed by the trimming of every piece. *)
Theorem parseCSVLine_without_quotes (line : jsstring) :
  noQuote line = true ->
  parseCSVLine line = map trim (split COMMA line).
Proof.
  intros H. rewrite parseCSVLine_scanLine. unfold split.
  by rewrite scanLine_noQuote.
Qed.

Lemma parseCSVLine_without_quotes_witness :
  noQuote (str " Amy , 8,,x ") = true
  /\ parseCSVLine (str " Amy , 8,,x ") = [str "Amy"; str "8"; []; str "x"].
Proof.
  split; [reflexivity|].
  rewrite (parseCSVLine_without_quotes (str " Amy , 8,,x ")); reflexivity.
Defined.

Lemma scanLine_length (chars cur : jsstring) (inQ : bool) (res : list jsstring) :
  length res + 1 <= length (scanLine cur inQ res chars)
  /\ length (scanLine cur inQ res chars) <= length res + 1 + countOf COMMA chars.
Proof.
  unfold countOf.
  revert cur inQ res. induction chars as [|c chars IH]; intros cur inQ res; simpl scanLine.
  - rewrite length_app. simpl. lia.
  - rewrite filter_cons.
    destruct (c =? QUOTE)%N eqn:Eq.
    + specialize (IH (cur ++ [c]) (negb inQ) res).
      destruct (decide (c = COMMA)); simpl length; lia.
    + destruct (c =? COMMA)%N eqn:Ec; simpl andb; cbv iota.
      * apply N.eqb_eq in Ec. rewrite decide_True by done. simpl length.
        destruct inQ; simpl negb; cbv iota.
        -- specialize (IH (cur ++ [c]) true res). lia.
        -- specialize (IH [] false (res ++ [finishValue cur])).
           rewrite length_app in IH. simpl length in IH. lia.
      * apply N.eqb_neq in Ec. rewrite decide_False by done.
        specialize (IH (cur ++ [c]) inQ res). lia.
Qed.

(** X2. For every line, whatever its quoting, [parseCSVLine] returns at
    least one cell and at most one more than the line has commas, and no
    cell has white space at its ends. *)
Theorem parseCSVLine_cells (line : jsstring) :
  1 <= length (parseCSVLine line)
  /\ length (parseCSVLine line) <= 1 + countOf COMMA line
  /\ Forall (fun c => trimmed c = true) (parseCSVLine line).
Proof.
  rewrite parseCSVLine_scanLine.
  destruct (scanLine_length line [] false []) as [Hlo Hhi]. simpl in Hlo, Hhi.
  split; [done|]. split; [done|]. by apply scanLine_trimmed.
Qed.

Lemma split_from_nonempty (sep : N) (cur s : jsstring) : split_from sep cur s <> [].
Proof.
  revert cur. induction s as [|c s IH]; intros cur; simpl; [done|].
  destruct (c =? sep)%N; [done|apply IH].
Qed.

Lemma scanLine_noQuote_prefix (pre cur tail : jsstring) (res : list jsstring) :
  noQuote cur = true -> noQuote pre = true ->
  scanLine cur false res (pre ++ tail)
  = scanLine (List.last (split_from COMMA cur pre) [])
      false (res ++ map trim (removelast (split_from COMMA cur pre))) tail.
Proof.
  revert cur res. induction pre as [|c pre IH]; intros cur res Hcur Hpre.
  - simpl. by rewrite app_nil_r.
  - simpl in Hpre. apply andb_true_iff in Hpre as [Hc Hpre].
    apply negb_true_iff in Hc. simpl app. simpl scanLine. rewrite Hc.
    simpl split_from.
    destruct (c =? COMMA)%N eqn:Ec; simpl andb; cbv iota.
    + rewrite IH by done.
      pose proof (split_from_nonempty COMMA [] pre) as Hne.
      destruct (split_from COMMA [] pre) as [|p ps] eqn:E; [done|].
      change (List.last (cur :: p :: ps) []) with (List.last (p :: ps) []).
      change (removelast (cur :: p :: ps)) with (cur :: removelast (p :: ps)).
      simpl map. unfold finishValue. rewrite unquote_noQuote by done.
      by rewrite <- app_assoc.
    + apply IH; [|done]. rewrite noQuote_app, Hcur. simpl. by rewrite Hc.
Qed.

(** X3. A quote that is never closed does not make the parser fail: when
    the text before the quote and the text after it hold no other quote, the
    cells before the quote are those of the split at the commas, and all
    that follows the last of these commas, with the quote and the commas
    after it, is one cell; so the line has as many cells as the text before
    the quote. *)
Theorem parseCSVLine_unclosed_quote (pre rest : jsstring) :
  noQuote pre = true -> noQuote rest = true ->
  parseCSVLine (pre ++ QUOTE :: rest)
  = map trim (removelast (split COMMA pre))
    ++ [trim (unquote (List.last (split COMMA pre) [] ++ QUOTE :: rest))]
  /\ length (parseCSVLine (pre ++ QUOTE :: rest)) = length (parseCSVLine pre).
Proof.
  intros Hpre Hrest.
  assert (Heq : parseCSVLine (pre ++ QUOTE :: rest)
                = map trim (removelast (split COMMA pre))
                  ++ [trim (unquote (List.last (split COMMA pre) [] ++ QUOTE :: rest))]).
  { rewrite parseCSVLine_scanLine, scanLine_noQuote_prefix by done.
    simpl scanLine.
    rewrite <- (app_nil_r rest) at 1.
    rewrite (scanLine_field rest [] _ true true) by (by apply fieldEnd_inside).
    simpl. unfold finishValue, split. by rewrite <- app_assoc. }
  split; [done|]. rewrite Heq, parseCSVLine_without_quotes by done.
  rewrite length_app, !length_map. simpl.
  pose proof (split_from_nonempty COMMA [] pre) as Hne. fold (split COMMA pre) in Hne.
  destruct (split COMMA pre) as [|p ps] using rev_ind; [done|].
  rewrite removelast_last, length_app. simpl. lia.
Qed.

Lemma parseCSVLine_unclosed_quote_witness :
  parseCSVLine (str "Amy, 8 ," ++ QUOTE :: str "late, see note")
  = [str "Amy"; str "8"; QUOTE :: str "late, see note"]
  /\ length (parseCSVLine (str "Amy, 8 ," ++ QUOTE :: str "late, see note"))
     = length (parseCSVLine (str "Amy, 8 ,")).
Proof.
  destruct (parseCSVLine_unclosed_quote (str "Amy, 8 ,") (str "late, see note")) as [H1 H2];
    [reflexivity|reflexivity|].
  split; [|exact H2]. rewrite H1. reflexivity.
Defined.

(** ** More on the parsed table *)

Lemma noLineBreak_app (s t : jsstring) : noLineBreak (s ++ t) = noLineBreak s && noLineBreak t.
Proof. unfold noLineBreak. apply forallb_app. Qed.

Lemma splitLines_from_app (s cur rest : jsstring) :
  noLineBreak s = true ->
  splitLines_from cur (s ++ rest) = splitLines_from (cur ++ s) rest.
Proof.
  revert cur. induction s as [|c s IH]; intros cur H; simpl.
  - by rewrite app_nil_r.
  - simpl in H. apply andb_true_iff in H as [Hc Hs]. apply andb_true_iff in Hc as [Hc _].
    apply negb_true_iff in Hc. rewrite Hc, IH by done. by rewrite <- app_assoc.
Qed.

Lemma dropFinalCR_noLineBreak (s : jsstring) : noLineBreak s = true -> dropFinalCR s = s.
Proof.
  intros H. unfold dropFinalCR. destruct (last s) as [c|] eqn:E; [|done].
  apply last_Some in E as [s' ->]. rewrite noLineBreak_app in H.
  apply andb_true_iff in H as [_ H]. simpl in H. rewrite andb_true_r in H.
  apply andb_true_iff in H as [_ H]. apply negb_true_iff in H. by rewrite H.
Qed.

Lemma dropFinalCR_snoc (s : jsstring) : dropFinalCR (s ++ [CR]) = s.
Proof.
  unfold dropFinalCR. rewrite last_snoc. simpl.
  rewrite length_app. simpl. rewrite take_app_length'; [done|lia].
Qed.

Lemma splitLines_join_LF (lines : list jsstring) :
  lines <> [] -> forallb noLineBreak lines = true ->
  splitLines (join [LF] lines) = lines.
Proof.
  unfold splitLines. induction lines as [|l lines IH]; [done|]. intros _ H.
  simpl in H. apply andb_true_iff in H as [Hl Hls].
  destruct lines as [|l2 lines].
  - simpl join. rewrite <- (app_nil_r l) at 1. by rewrite splitLines_from_app.
  - change (join [LF] (l :: l2 :: lines)) with (l ++ [LF] ++ join [LF] (l2 :: lines)).
    rewrite splitLines_from_app by done. simpl.
    rewrite dropFinalCR_noLineBreak by done. f_equal. by apply IH.
Qed.

Lemma splitLines_join_CRLF (lines : list jsstring) :
  lines <> [] -> forallb noLineBreak lines = true ->
  splitLines (join [CR; LF] lines) = lines.
Proof.
  unfold splitLines. induction lines as [|l lines IH]; [done|]. intros _ H.
  simpl in H. apply andb_true_iff in H as [Hl Hls].
  destruct lines as [|l2 lines].
  - simpl join. rewrite <- (app_nil_r l) at 1. by rewrite splitLines_from_app.
  - change (join [CR; LF] (l :: l2 :: lines))
      with (l ++ [CR; LF] ++ join [CR; LF] (l2 :: lines)).
    rewrite splitLines_from_app by done. simpl.
    rewrite dropFinalCR_snoc. f_equal. by apply IH.
Qed.

(** The table only depends on the lines that are not blank. *)
Lemma parseCSV_lines (content content' : jsstring) :
  filter (fun line => trim line ≠ []) (splitLines content)
  = filter (fun line => trim line ≠ []) (splitLines content') ->
  parseCSV content = parseCSV content'.
Proof. unfold parseCSV. by intros ->. Qed.

Lemma padRow_replicate (n : nat) (row : list jsstring) :
  padRow n row = row ++ replicate (n - length row) [].
Proof.
  unfold padRow. destruct (Nat.ltb_spec (length row) n); [done|].
  replace (n - length row) with 0 by lia. simpl. by rewrite app_nil_r.
Qed.

(** X4. The table has one row per line that is not blank, in the order of the
    lines: the rows are, one for one, the cells of the lines that are not
    blank as the line parser reads them, each followed by the empty cells it
    lacks to reach the width of the headers. The table is empty exactly when
    every line is blank (so for the empty text and for a text of white
    space), and then there are no headers; otherwise the headers are the
    first row, which is the first line that is not blank as the line parser
    reads it: the first row is never padded. *)
Theorem parseCSV_rows_of_lines (content : jsstring) :
  let lines := filter (fun line => trim line ≠ []) (splitLines content) in
  let width := length (headers (parseCSV content)) in
  data (parseCSV content)
  = map (fun line => parseCSVLine line ++ replicate (width - length (parseCSVLine line)) [])
        lines
  /\ length (data (parseCSV content)) = length lines
  /\ headers (parseCSV content) = default [] (data (parseCSV content) !! 0)
  /\ (parseCSV content = {| headers := []; data := [] |}
      <-> Forall (fun line => trim line = []) (splitLines content))
  /\ (forall line rest, lines = line :: rest ->
        headers (parseCSV content) = parseCSVLine line).
Proof.
  intros lines. unfold parseCSV. fold lines.
  destruct lines as [|line rest] eqn:E; simpl.
  - split; [done|]. split; [done|]. split; [done|]. split; [|done].
    split; [intros _|done].
    apply Forall_forall. intros l Hl.
    destruct (decide (trim l = [])) as [|Hne]; [done|].
    assert (l ∈ lines) as Hin by (by apply list_elem_of_filter).
    rewrite E in Hin. by apply elem_of_nil in Hin.
  - assert (Hpad : padRow (length (parseCSVLine line)) (parseCSVLine line) = parseCSVLine line).
    { unfold padRow. by rewrite Nat.ltb_irrefl. }
    rewrite Hpad. split.
    { rewrite Nat.sub_diag. simpl. rewrite app_nil_r. f_equal.
      rewrite map_map. apply map_ext. intros l. apply padRow_replicate. }
    split; [by rewrite !length_map|]. split; [done|]. split.
    + split; [done|]. intros Hall. exfalso.
      assert (line ∈ lines) as Hin by (rewrite E; by left).
      apply list_elem_of_filter in Hin as [Hne Hin].
      rewrite Forall_forall in Hall. by apply Hne, Hall.
    + by intros ? ? [= <- <-].
Qed.

(** X5. No cell of a line is ever dropped: every row of the table is the
    cells of a line that is not blank, followed by as many empty cells as
    the row lacks to reach the width of the headers; so its width is the
    larger of the width of the headers and the number of cells of its
    line. *)
Theorem parseCSV_row_shape (content : jsstring) (row : list jsstring) :
  row ∈ data (parseCSV content) ->
  exists line,
    line ∈ splitLines content /\ trim line <> []
    /\ row = parseCSVLine line
             ++ replicate (length (headers (parseCSV content)) - length (parseCSVLine line)) []
    /\ length row = max (length (headers (parseCSV content))) (length (parseCSVLine line)).
Proof.
  unfold parseCSV.
  destruct (filter _ (splitLines content)) as [|l0 ls] eqn:E; simpl; [by intros ?%elem_of_nil|].
  assert (Hpad : padRow (length (parseCSVLine l0)) (parseCSVLine l0) = parseCSVLine l0).
  { unfold padRow. by rewrite Nat.ltb_irrefl. }
  rewrite Hpad. intros Hrow.
  assert (Hrow' : row ∈ map (padRow (length (parseCSVLine l0))) (map parseCSVLine (l0 :: ls))).
  { simpl. by rewrite Hpad. }
  apply list_elem_of_fmap in Hrow' as (r & -> & Hr).
  apply list_elem_of_fmap in Hr as (line & -> & Hline).
  rewrite <- E in Hline. apply list_elem_of_filter in Hline as [Hne Hline].
  exists line. split; [done|]. split; [done|]. split.
  - unfold padRow. destruct (Nat.ltb_spec (length (parseCSVLine line)) (length (parseCSVLine l0))).
    + done.
    + replace (length (parseCSVLine l0) - length (parseCSVLine line)) with 0 by lia.
      simpl. by rewrite app_nil_r.
  - apply length_padRow.
Qed.

Lemma parseCSV_row_shape_witness :
  exists line,
    line ∈ splitLines (text [str "a,b,c"; str "x"; str "1,2,3,4"]) /\ trim line <> []
    /\ [str "x"; []; []]
       = parseCSVLine line
         ++ replicate (length (headers (parseCSV (text [str "a,b,c"; str "x"; str "1,2,3,4"])))
                       - length (parseCSVLine line)) []
    /\ length [str "x"; []; []]
       = max (length (headers (parseCSV (text [str "a,b,c"; str "x"; str "1,2,3,4"]))))
             (length (parseCSVLine line)).
Proof.
  apply (parseCSV_row_shape (text [str "a,b,c"; str "x"; str "1,2,3,4"]) [str "x"; []; []]).
  apply list_elem_of_In. vm_compute. right. left. reflexivity.
Defined.

(** A cell of a table whose text has spaces around the values. *)
Lemma parseCSV_cells_trimmed_witness :
  trimmed (str "HW 1") = true.
Proof.
  apply (parseCSV_cells_trimmed (text [str " Name ,  HW 1 "; str "Max,10"])
           [str "Name"; str "HW 1"] (str "HW 1")).
  - apply list_elem_of_In. vm_compute. left. reflexivity.
  - apply list_elem_of_In. vm_compute. right. left. reflexivity.
Defined.

(** X7. A text whose lines end with CR LF and the same text with lines ending
    with LF give the same table. *)
Theorem parseCSV_line_endings (lines : list jsstring) :
  forallb noLineBreak lines = true ->
  parseCSV (join [CR; LF] lines) = parseCSV (join [LF] lines).
Proof.
  intros H. destruct lines as [|l ls]; [done|].
  apply parseCSV_lines. by rewrite splitLines_join_CRLF, splitLines_join_LF.
Qed.

Lemma parseCSV_line_endings_witness :
  parseCSV (str "Name,HW" ++ [CR; LF] ++ str "Max,10" ++ [CR; LF] ++ str "Amy,7")
  = parseCSV (str "Name,HW" ++ [LF] ++ str "Max,10" ++ [LF] ++ str "Amy,7").
Proof.
  apply (parseCSV_line_endings [str "Name,HW"; str "Max,10"; str "Amy,7"]). reflexivity.
Defined.

(** X8. Blank lines do not count: a line of white space, wherever it is put
    between the lines of a text, leaves the table as it is. *)
Theorem parseCSV_blank_line (before after : list jsstring) (blank : jsstring) :
  forallb noLineBreak (before ++ blank :: after) = true ->
  trim blank = [] ->
  parseCSV (text (before ++ blank :: after)) = parseCSV (text (before ++ after)).
Proof.
  intros H Hblank. apply parseCSV_lines. unfold text.
  rewrite splitLines_join_LF; [|by destruct before|done].
  assert (H' : forallb noLineBreak (before ++ after) = true).
  { rewrite forallb_app in H |- *. simpl in H.
    apply andb_true_iff in H as [-> H]. by apply andb_true_iff in H as [_ ->]. }
  rewrite filter_app, filter_cons, decide_False by (by intros ?).
  destruct (before ++ after) as [|l ls] eqn:E.
  - apply app_eq_nil in E as [-> ->]. done.
  - rewrite splitLines_join_LF by done. by rewrite <- E, filter_app.
Qed.

Lemma parseCSV_blank_line_witness :
  parseCSV (text [str "Name,HW"; str "   "; str "Max,10"])
  = parseCSV (text [str "Name,HW"; str "Max,10"]).
Proof.
  apply (parseCSV_blank_line [str "Name,HW"] [str "Max,10"] (str "   ")); reflexivity.
Defined.

(** ** The emitted text, read back *)

Lemma trimStart_keeps (l r : jsstring) (c : N) :
  isWhiteSpace c = false -> trimStart (l ++ c :: r) <> [].
Proof.
  intros Hc. induction l as [|d l IH]; simpl.
  - by rewrite Hc.
  - by destruct (isWhiteSpace d).
Qed.

(** A text that starts with a code unit that is not white space is not
    blank. *)
Lemma trim_nonblank (c : N) (s : jsstring) : isWhiteSpace c = false -> trim (c :: s) <> [].
Proof.
  intros Hc. unfold trim, trimEnd. simpl trimStart. rewrite Hc.
  rewrite reverse_cons. intros H.
  apply (f_equal reverse) in H. rewrite reverse_involutive in H. simpl in H.
  by apply (trimStart_keeps (reverse s) [] c).
Qed.

Lemma noLineBreak_doubleQuotes (s : jsstring) :
  noLineBreak s = true -> noLineBreak (doubleQuotes s) = true.
Proof.
  induction s as [|c s IH]; [done|]. simpl. intros [Hc Hs]%andb_true_iff.
  destruct (c =? QUOTE)%N eqn:E; simpl.
  - apply N.eqb_eq in E as ->. by apply IH.
  - rewrite Hc. by apply IH.
Qed.

(** The line of a record that can be emitted, as the line parser reads it. *)
Lemma csvRow_line_parses (r : TargetRow) :
  emittable r = true ->
  parseCSVLine (join [COMMA] (csvRow r)) = rowValues r.
Proof.
  unfold emittable. intros H. rewrite !andb_true_iff in H.
  destruct H as [[[[[[[[_ ?] ?] ?] ?] ?] ?] ?] ?].
  rewrite parseCSVLine_scanLine. unfold csvRow, rowValues. cbn [join]. rewrite marks_field.
  rewrite scanLine_field_comma by (by apply fieldEnd_quoted, fieldEnd_inside).
  rewrite scanLine_field_comma by (apply fieldEnd_quoted, fieldEnd_doubleQuotes).
  rewrite scanLine_field_comma by (by apply fieldEnd_plainField).
  rewrite scanLine_field_comma by (by apply fieldEnd_quoted, fieldEnd_inside).
  rewrite scanLine_field_comma by (by apply fieldEnd_plainField).
  rewrite scanLine_field_last by (by apply fieldEnd_plainField).
  rewrite finishValue_quoted_plain by done.
  rewrite finishValue_quoted_doubled by done.
  rewrite finishValue_quoted_plain by done.
  by rewrite !finishValue_plain.
Qed.

Lemma csvRow_line_noLineBreak (r : TargetRow) :
  emittable r = true -> noLineBreak (join [COMMA] (csvRow r)) = true.
Proof.
  unfold emittable. intros H. rewrite !andb_true_iff in H.
  destruct H as [[[[[[[[Hnb _] _] _] _] _] _] _] _].
  unfold rowValues in Hnb. simpl in Hnb. rewrite !andb_true_iff in Hnb.
  destruct Hnb as (? & ? & ? & ? & ? & ? & _).
  unfold csvRow. cbn [join]. rewrite marks_field.
  rewrite !noLineBreak_app. simpl.
  rewrite noLineBreak_doubleQuotes by done.
  repeat match goal with Hx : noLineBreak _ = true |- _ => rewrite Hx; clear Hx end.
  reflexivity.
Qed.

(** X9. Emitting then parsing gives the records back: for records that can
    be emitted ([emittable]), the table parsed from the emitted text has the
    six column titles as headers and as first row, then one row per record
    with the six values of the record. *)
Theorem parseCSV_generateCSVContent (rows : list TargetRow) :
  forallb emittable rows = true ->
  parseCSV (generateCSVContent rows)
  = {| headers := csvHeaders; data := csvHeaders :: map rowValues rows |}.
Proof.
  intros H. rewrite forallb_forall in H.
  set (lines := join [COMMA] csvHeaders :: map (fun r => join [COMMA] (csvRow r)) rows).
  assert (Hgen : generateCSVContent rows = join [LF] lines).
  { unfold generateCSVContent, lines. cbv zeta. by rewrite map_map. }
  assert (Hbreak : forallb noLineBreak lines = true).
  { unfold lines. cbn [forallb]. apply andb_true_iff. split; [by vm_compute|].
    apply forallb_forall. intros l Hl. apply in_map_iff in Hl as (r & <- & Hr).
    by apply csvRow_line_noLineBreak, H. }
  assert (Hkeep : filter (fun line => trim line ≠ []) lines = lines).
  { apply filter_all. intros l Hl. unfold lines in Hl.
    apply elem_of_cons in Hl as [->|Hl]; [by vm_compute|].
    apply list_elem_of_fmap in Hl as (r & -> & _).
    unfold csvRow. cbn [join]. simpl app. by apply trim_nonblank. }
  unfold parseCSV. rewrite Hgen, splitLines_join_LF, Hkeep by done.
  assert (Hparsed : map parseCSVLine lines = csvHeaders :: map rowValues rows).
  { unfold lines. cbn [map].
    change (parseCSVLine (join [COMMA] csvHeaders)) with csvHeaders. f_equal.
    rewrite map_map. apply map_ext_in. intros r Hr. by apply csvRow_line_parses, H. }
  rewrite Hparsed. simpl length. simpl Nat.eqb. cbv iota.
  assert (Hpad : map (padRow 6) (csvHeaders :: map rowValues rows)
                 = csvHeaders :: map rowValues rows).
  { simpl map. f_equal. rewrite map_map. apply map_ext. intros r. reflexivity. }
  cbv zeta. simpl lookup. simpl default. simpl length.
  by rewrite Hpad.
Qed.

Lemma parseCSV_generateCSVContent_witness :
  parseCSV (generateCSVContent [commaRecord])
  = {| headers := csvHeaders; data := [csvHeaders; rowValues commaRecord] |}.
Proof.
  apply (parseCSV_generateCSVContent [commaRecord]). reflexivity.
Defined.

(** ** The header row *)

Lemma findHeaderRowIndex_loop_spec (i : nat) (rows : list (list jsstring)) :
  let h := findHeaderRowIndex_loop i rows in
  (i <= h /\ (exists row, rows !! (h - i) = Some row /\ isHeaderRow row = true)
   /\ forall j r, j < h - i -> rows !! j = Some r -> isHeaderRow r = false)
  \/ (h = 0 /\ forall j r, rows !! j = Some r -> isHeaderRow r = false).
Proof.
  revert i. induction rows as [|row rows IH]; intros i; simpl.
  - right. split; [done|]. intros j r. by rewrite lookup_nil.
  - destruct (isHeaderRow row) eqn:E.
    + left. split; [lia|]. rewrite Nat.sub_diag. split; [by exists row|]. intros j r Hj. lia.
    + destruct (IH (i + 1)) as [(Hle & (r & Hr & Hh) & Hbefore)|[H0 Hnone]].
      * left. split; [lia|]. split.
        -- exists r. split; [|done].
           replace (findHeaderRowIndex_loop (i + 1) rows - i)
             with (S (findHeaderRowIndex_loop (i + 1) rows - (i + 1))) by lia.
           done.
        -- intros [|j] r' Hj; simpl; [by intros [= <-]|].
           apply Hbefore. lia.
      * right. split; [done|]. intros [|j] r' ; simpl; [by intros [= <-]|]. apply Hnone.
Qed.

(** X10. The header row is the first of the first twenty rows whose first
    cell, trimmed, contains one of the four markers; when none of them does
    (so also when the header is at row 20 or further down, or the table is
    empty), it is row 0. *)
Theorem findHeaderRowIndex_first_match (data : list (list jsstring)) :
  let h := findHeaderRowIndex data in
  (h < 20 /\ (exists row, data !! h = Some row /\ isHeaderRow row = true)
   /\ forall j r, j < h -> data !! j = Some r -> isHeaderRow r = false)
  \/ (h = 0 /\ forall j r, j < 20 -> data !! j = Some r -> isHeaderRow r = false).
Proof.
  intros h. subst h. unfold findHeaderRowIndex.
  set (n := min (length data) 20).
  destruct (findHeaderRowIndex_loop_spec 0 (take n data))
    as [(_ & (r & Hr & Hh) & Hbefore)|[H0 Hnone]].
  - rewrite Nat.sub_0_r in Hr, Hbefore.
    apply lookup_take_Some in Hr as [Hr Hlt].
    left. split; [lia|]. split; [by exists r|].
    intros j r' Hj Hr'. apply (Hbefore j); [done|].
    apply lookup_take_Some. split; [done|]. lia.
  - right. split; [done|]. intros j r Hj Hr. apply (Hnone j).
    apply lookup_take_Some. split; [done|].
    apply lookup_lt_Some in Hr. lia.
Qed.

(** ** The valid columns *)

Section Columns.
Context {host : Host}.

Lemma identifyAssignments_map (headerRow maxMarksRow : list jsstring) :
  identifyAssignments headerRow maxMarksRow
  = map (fun i => {| name := cell headerRow i;
                     totalMarks := keepDigitsAndDots (cell maxMarksRow i);
                     originalIndex := i |})
        (validIndices headerRow maxMarksRow).
Proof.
  rewrite validIndices_omap. unfold identifyAssignments.
  rewrite (fold_left_push
             (fun i => if truthy (cell headerRow i) && isNumeric maxMarksRow i
                       then Some {| name := cell headerRow i;
                                    totalMarks := cleanMaxMarks maxMarksRow i;
                                    originalIndex := i |}
                       else None)).
  - simpl. induction (seq 1 (length headerRow - 1)) as [|i l IH]; [done|].
    simpl. destruct (_ && _); simpl; [f_equal|]; exact IH.
  - intros acc i. cbv zeta. by destruct (_ && _).
Qed.

Lemma omap_seq_sorted (f : nat -> option nat) (a n : nat) :
  (forall i j, f i = Some j -> j = i) ->
  StronglySorted lt (omap f (seq a n)).
Proof.
  intros Hf. revert a. induction n as [|n IH]; intros a; simpl; [constructor|].
  destruct (f a) as [j|] eqn:E; [|apply IH].
  apply Hf in E as ->. constructor; [apply IH|].
  apply Forall_forall. intros k Hk. apply list_elem_of_omap in Hk as (i & Hi & Hk).
  apply Hf in Hk as ->. apply elem_of_seq in Hi. lia.
Qed.

Lemma validIndices_sorted (headerRow maxMarksRow : list jsstring) :
  StronglySorted lt (validIndices headerRow maxMarksRow).
Proof.
  rewrite validIndices_omap. apply omap_seq_sorted.
  intros i j. by destruct (_ && _); intros [= <-].
Qed.

(** A valid assignment is the assignment of a valid column. *)
Lemma identifyAssignments_elem (headerRow maxMarksRow : list jsstring) (a : ProcessedAssignment) :
  a ∈ identifyAssignments headerRow maxMarksRow
  <-> validColumn headerRow maxMarksRow (originalIndex a) = true
      /\ name a = cell headerRow (originalIndex a)
      /\ totalMarks a = keepDigitsAndDots (cell maxMarksRow (originalIndex a)).
Proof.
  rewrite identifyAssignments_map, list_elem_of_fmap. split.
  - intros (i & -> & Hi). simpl. by apply validIndices_elem in Hi.
  - intros (Hv & Hn & Ht). exists (originalIndex a). split.
    + destruct a as [n t i]. simpl in *. by subst.
    + by apply validIndices_elem.
Qed.

(** X11. The two passes work on the same columns. The valid assignments of
    [processClassInToGradebook] are, one for one and in the same order, the
    valid indices of [getUniqueNonNumericMarks], each with the header cell
    of the column as name and the maximum-marks cell, stripped of what is
    not a digit or a full stop, as total; the indices are exactly the valid
    columns, from left to right and none twice. *)
Theorem identifyAssignments_same_columns (headerRow maxMarksRow : list jsstring) :
  identifyAssignments headerRow maxMarksRow
  = map (fun i => {| name := cell headerRow i;
                     totalMarks := keepDigitsAndDots (cell maxMarksRow i);
                     originalIndex := i |})
        (validIndices headerRow maxMarksRow)
  /\ (forall i, i ∈ validIndices headerRow maxMarksRow
                <-> validColumn headerRow maxMarksRow i = true)
  /\ StronglySorted lt (validIndices headerRow maxMarksRow).
Proof.
  split; [apply identifyAssignments_map|].
  split; [apply validIndices_elem|apply validIndices_sorted].
Qed.

(** A loop over rows that pushes nothing when there is no valid column. *)
Lemma pushRow_no_assignment (columnStats : gmap jsstring ColumnStat)
  (assignmentDates : gmap jsstring jsstring) (fallbackDate : jsstring)
  (gradeMapping : GradeMapping) (rows : list (list jsstring)) (results : list TargetRow) :
  fold_left (pushRow columnStats assignmentDates fallbackDate gradeMapping []) rows results
  = results.
Proof.
  revert results. induction rows as [|row rows IH]; intros results; simpl; [done|].
  rewrite IH. unfold pushRow. by destruct (skipsRow row).
Qed.

Lemma scanRow_no_index (headerRow : list jsstring) (rows : list (list jsstring))
  (uniqueSet : list jsstring) :
  fold_left (scanRow headerRow []) rows uniqueSet = uniqueSet.
Proof.
  revert uniqueSet. induction rows as [|row rows IH]; intros uniqueSet; simpl; [done|].
  rewrite IH. unfold scanRow. by destruct (skipsRow row).
Qed.

(** X12. Without a row of students, that is when the table ends at the
    header row, at the row of maximum marks or at the row of categories, and
    also without a valid column, both passes return nothing: there is no
    record and no status is found. *)
Theorem no_students_or_no_columns_no_output (parsedData : ParseResult) (selectedDate : jsstring)
  (gradeMapping : GradeMapping) :
  length (data parsedData) <= findHeaderRowIndex (data parsedData) + 3
  \/ validIndices (headerRowOf parsedData) (maxMarksRowOf parsedData) = [] ->
  processClassInToGradebook parsedData selectedDate gradeMapping = []
  /\ getUniqueNonNumericMarks parsedData = [].
Proof.
  intros H. unfold processClassInToGradebook, getUniqueNonNumericMarks. cbv zeta.
  fold (headerRowOf parsedData). fold (maxMarksRowOf parsedData).
  split.
  - destruct (_ <? _); [done|]. destruct H as [H|H].
    + by rewrite drop_ge by lia.
    + rewrite identifyAssignments_map, H. simpl. apply pushRow_no_assignment.
  - destruct (_ <? _); [done|]. destruct (_ <=? _); [done|]. destruct H as [H|H].
    + by rewrite drop_ge by lia.
    + rewrite H. apply scanRow_no_index.
Qed.

End Columns.

Lemma no_students_or_no_columns_no_output_witness :
  @processClassInToGradebook refHost (parseCSV (text [str "Name,HW"; str "Max,10"; str "Category,x"]))
     (str "2024-03-05") ∅ = []
  /\ @getUniqueNonNumericMarks refHost
       (parseCSV (text [str "Name,HW"; str "Max,10"; str "Category,x"])) = [].
Proof.
  apply (@no_students_or_no_columns_no_output refHost).
  left. vm_compute. lia.
Defined.

(** ** The fields of the records *)

Lemma streq_refl (s : jsstring) : streq s s = true.
Proof. by apply streq_eq. Qed.

Lemma streq_false (s t : jsstring) : s <> t -> streq s t = false.
Proof. apply streq_neq. Qed.

Section RecordFields.
Context {host : Host}.

(** The records of a run, one by one. *)
Lemma processClassInToGradebook_elem (parsedData : ParseResult) (selectedDate : jsstring)
  (gradeMapping : GradeMapping) (r : TargetRow) :
  r ∈ processClassInToGradebook parsedData selectedDate gradeMapping
  <-> exists row a,
        row ∈ studentDataRowsOf parsedData /\ qualifies row = true
        /\ a ∈ validAssignmentsOf parsedData
        /\ recordFor gradeMapping (studentDataRowsOf parsedData)
             (getWorkingDaysFromStartToToday selectedDate) (fallbackDateOf selectedDate)
             (validAssignmentsOf parsedData) row a = Some r.
Proof.
  rewrite processClassInToGradebook_records. unfold recordsKeyedByName. cbv zeta.
  rewrite list_elem_of_In, in_flat_map. split.
  - intros (row & Hrow & Hr). destruct (qualifies row) eqn:Hq; [|done].
    apply list_elem_of_In, list_elem_of_omap in Hr as (a & Ha & Hr).
    exists row, a. by rewrite <- list_elem_of_In in Hrow.
  - intros (row & a & Hrow & Hq & Ha & Hr). exists row.
    split; [by apply list_elem_of_In|]. rewrite Hq.
    apply list_elem_of_In, list_elem_of_omap. by exists a.
Qed.

(** What [recordFor] returns, when it returns a record. *)
Lemma recordFor_Some (gradeMapping : GradeMapping) (studentDataRows : list (list jsstring))
  (workingDays : list jsstring) (fallbackDate : jsstring)
  (validAssignments : list ProcessedAssignment) (row : list jsstring)
  (a : ProcessedAssignment) (r : TargetRow) :
  recordFor gradeMapping studentDataRows workingDays fallbackDate validAssignments row a = Some r
  <-> trim (cell row (originalIndex a)) <> trim (name a)
      /\ exists k keyed,
           rightmost validAssignments (name a) = Some (k, keyed)
           /\ r = targetRow (cell row 0) a (analyzeColumn gradeMapping studentDataRows keyed)
                    (orElse (cell workingDays (randomIndex k (length workingDays))) fallbackDate)
                    (trim (cell row (originalIndex a))) gradeMapping.
Proof.
  unfold recordFor. cbv zeta.
  destruct (decide (trim (cell row (originalIndex a)) = trim (name a))) as [He|Hne].
  - rewrite He, streq_refl. split; [done|]. by intros [? _].
  - rewrite (streq_false _ _ Hne).
    destruct (rightmost validAssignments (name a)) as [[k keyed]|].
    + split.
      * intros [= <-]. split; [done|]. by exists k, keyed.
      * intros [_ (k' & keyed' & [= <- <-] & ->)]. done.
    + split; [done|]. by intros [_ (? & ? & ? & _)].
Qed.

Lemma qualifies_name (row : list jsstring) :
  qualifies row = true
  <-> cell row 0 <> [] /\ startsWith (cell row 0) (str "---") = false.
Proof.
  unfold qualifies. rewrite andb_true_iff, !negb_true_iff. split.
  - intros [H1 H2]. split; [|done]. by apply streq_neq.
  - intros [H1 H2]. split; [|done]. by apply streq_neq.
Qed.

(** X13. Every record of a run is well formed. Its student name is the first
    cell of a row of students, is not empty and does not start with three
    hyphens; its assignment name is the name of a valid assignment, is not
    empty, and is not what the cell of the student reads once trimmed; its
    category is Coursework; its total is the total of the assignment
    written with one decimal, and is not empty; its mark is empty, or the
    literal 0, or a number written with one decimal. *)
Theorem processClassInToGradebook_record_fields (parsedData : ParseResult)
  (selectedDate : jsstring) (gradeMapping : GradeMapping) (r : TargetRow) :
  r ∈ processClassInToGradebook parsedData selectedDate gradeMapping ->
  exists row a,
    row ∈ studentDataRowsOf parsedData /\ a ∈ validAssignmentsOf parsedData
    /\ StudentName r = cell row 0 /\ StudentName r <> []
    /\ startsWith (StudentName r) (str "---") = false
    /\ AssignmentName r = name a /\ AssignmentName r <> []
    /\ trim (cell row (originalIndex a)) <> trim (AssignmentName r)
    /\ Category r = str "Coursework"
    /\ TotalMarksPossible r = toFixed1 (parseFloat (totalMarks a))
    /\ TotalMarksPossible r <> []
    /\ (Marks r = [] \/ Marks r = str "0" \/ exists x : number, Marks r = toFixed1 x).
Proof.
  intros Hr. apply processClassInToGradebook_elem in Hr as (row & a & Hrow & Hq & Ha & Hr).
  apply recordFor_Some in Hr as [Hne (k & keyed & _ & ->)].
  apply qualifies_name in Hq as [Hname Hdash].
  exists row, a. simpl. repeat (split; [done|]).
  split.
  { apply identifyAssignments_elem in Ha as (Hv & Hn & _). rewrite Hn.
    unfold validColumn in Hv. rewrite !andb_true_iff, !negb_true_iff in Hv.
    destruct Hv as [[[_ Hv] _] _]. by apply streq_neq. }
  repeat (split; [done|]).
  split; [apply toFixed1_nonempty|apply resolveMark_cases].
Qed.





(** ** The keys of the mapping that a run reads *)

Lemma omap_agree {A B} (f g : A -> option B) (l : list A) :
  (forall x, f x = g x) -> omap f l = omap g l.
Proof. intros H. induction l as [|x l IH]; [done|]. csimpl. by rewrite H, IH. Qed.

Lemma pushMapped_agree (m m' : GradeMapping) (key : jsstring) (totalMarksNum : number)
  (values : list number) :
  m !! key = m' !! key ->
  pushMapped m key totalMarksNum values = pushMapped m' key totalMarksNum values.
Proof. unfold pushMapped. by intros ->. Qed.

Lemma scanCell_agree (m m' : GradeMapping) (a : ProcessedAssignment) (totalMarksNum : number)
  (sc : ColumnScan) (row : list jsstring) :
  (forall s, m !! toUpperCase s = m' !! toUpperCase s) ->
  scanCell m a totalMarksNum sc row = scanCell m' a totalMarksNum sc row.
Proof.
  intros H. unfold scanCell. cbv zeta.
  by rewrite (pushMapped_agree m m' _ _ _ (H _)).
Qed.

Lemma analyzeColumn_agree (m m' : GradeMapping) (rows : list (list jsstring))
  (a : ProcessedAssignment) :
  (forall s, m !! toUpperCase s = m' !! toUpperCase s) ->
  analyzeColumn m rows a = analyzeColumn m' rows a.
Proof.
  intros H. unfold analyzeColumn. cbv zeta.
  assert (Hfold : forall sc,
            fold_left (scanCell m a (parseFloat (totalMarks a))) rows sc
            = fold_left (scanCell m' a (parseFloat (totalMarks a))) rows sc).
  { induction rows as [|row rows IH]; intros sc; simpl; [done|].
    by rewrite IH, (scanCell_agree m m'). }
  by rewrite Hfold.
Qed.

Lemma resolveMark_agree (m m' : GradeMapping) (stats : ColumnStat) (totalMarksNum : number)
  (rawMark : jsstring) :
  (forall s, m !! toUpperCase s = m' !! toUpperCase s) ->
  resolveMark stats totalMarksNum rawMark m = resolveMark stats totalMarksNum rawMark m'.
Proof. intros H. unfold resolveMark. cbv zeta. by rewrite H. Qed.

Lemma recordFor_agree (m m' : GradeMapping) (rows : list (list jsstring))
  (workingDays : list jsstring) (fallbackDate : jsstring)
  (validAssignments : list ProcessedAssignment) (row : list jsstring) (a : ProcessedAssignment) :
  (forall s, m !! toUpperCase s = m' !! toUpperCase s) ->
  recordFor m rows workingDays fallbackDate validAssignments row a
  = recordFor m' rows workingDays fallbackDate validAssignments row a.
Proof.
  intros H. unfold recordFor, targetRow. cbv zeta.
  destruct (streq _ _); [done|].
  destruct (rightmost _ _) as [[k keyed]|]; [|done].
  by rewrite (analyzeColumn_agree m m'), (resolveMark_agree m m').
Qed.

(** Two mappings that agree on the keys that are the upper case of some
    string give the same records, in one run. *)
Lemma processClassInToGradebook_agree (parsedData : ParseResult)
  (selectedDate : jsstring) (m m' : GradeMapping) :
  (forall s, m !! toUpperCase s = m' !! toUpperCase s) ->
  processClassInToGradebook parsedData selectedDate m
  = processClassInToGradebook parsedData selectedDate m'.
Proof.
  intros H. rewrite !processClassInToGradebook_records. unfold recordsKeyedByName. cbv zeta.
  apply flat_map_ext. intros row. destruct (qualifies row); [|done].
  apply omap_agree. intros a. by apply recordFor_agree.
Qed.

Lemma map_omap {A B C} (g : B -> C) (f : A -> option B) (l : list A) :
  map g (omap f l) = omap (fun x => g <$> f x) l.
Proof.
  induction l as [|x l IH]; [done|]. csimpl. destruct (f x); csimpl; by rewrite IH.
Qed.

Lemma map_flat_map {A B C} (g : B -> C) (f : A -> list B) (l : list A) :
  map g (flat_map f l) = flat_map (fun x => map g (f x)) l.
Proof. induction l as [|x l IH]; [done|]. simpl. by rewrite map_app, IH. Qed.

End RecordFields.

(** ** What a run takes from the draws, the clock and the mapping *)

Section OtherRun.
Context {host : Host}.

(** The statistics of a column are the same in the other run. *)
Lemma analyzeColumn_otherRun (draws : nat -> nat -> nat) (days : jsstring -> list jsstring)
  (m : GradeMapping) (rows : list (list jsstring)) (a : ProcessedAssignment) :
  type (@analyzeColumn (otherRun host draws days) m rows a) = type (@analyzeColumn host m rows a)
  /\ average (@analyzeColumn (otherRun host draws days) m rows a)
     = average (@analyzeColumn host m rows a).
Proof.
  split.
  - pose proof (@analyzeColumn_type_MIXED (otherRun host draws days) m rows a) as H1.
    pose proof (@analyzeColumn_type_MIXED host m rows a) as H2.
    change (exists row, row ∈ rows /\ @gradedEvidence (otherRun host draws days) a row)
      with (exists row, row ∈ rows /\ @gradedEvidence host a row) in H1.
    destruct (type (@analyzeColumn (otherRun host draws days) m rows a)),
             (type (@analyzeColumn host m rows a)); try done.
    + assert (PURE_STATUS = MIXED) by (apply H1; by apply H2). done.
    + assert (PURE_STATUS = MIXED) by (apply H2; by apply H1). done.
  - rewrite (@analyzeColumn_average (otherRun host draws days)), (@analyzeColumn_average host).
    reflexivity.
Qed.

(** The mark of a cell is the same in the other run. *)
Lemma resolveMark_otherRun (draws : nat -> nat -> nat) (days : jsstring -> list jsstring)
  (stats' : @ColumnStat (otherRun host draws days)) (stats : @ColumnStat host)
  (totalMarksNum : @number host) (rawMark : jsstring) (m : GradeMapping) :
  type stats' = type stats -> average stats' = average stats ->
  @resolveMark (otherRun host draws days) stats' totalMarksNum rawMark m
  = @resolveMark host stats totalMarksNum rawMark m.
Proof.
  intros Htype Havg. unfold resolveMark. cbv zeta. rewrite Htype, Havg. reflexivity.
Qed.

(** Only the date of a record depends on the draws and on the working
    days. *)
Lemma recordFor_otherRun (draws : nat -> nat -> nat) (days : jsstring -> list jsstring)
  (m : GradeMapping) (rows : list (list jsstring)) (wd wd' : list jsstring)
  (fallbackDate : jsstring) (validAssignments : list ProcessedAssignment)
  (row : list jsstring) (a : ProcessedAssignment) :
  withoutDate <$> @recordFor (otherRun host draws days) m rows wd fallbackDate
                    validAssignments row a
  = withoutDate <$> @recordFor host m rows wd' fallbackDate validAssignments row a.
Proof.
  unfold recordFor. cbv zeta.
  destruct (streq _ _); [done|].
  destruct (rightmost validAssignments (name a)) as [[k keyed]|]; [|done].
  cbv [fmap option_fmap option_map withoutDate targetRow
       StudentName AssignmentName Category Marks TotalMarksPossible].
  destruct (analyzeColumn_otherRun draws days m rows keyed) as [Htype Havg].
  by rewrite (resolveMark_otherRun draws days _ (@analyzeColumn host m rows keyed)).
Qed.

Lemma processClassInToGradebook_otherRun (draws : nat -> nat -> nat)
  (days : jsstring -> list jsstring) (parsedData : ParseResult) (selectedDate : jsstring)
  (m : GradeMapping) :
  map withoutDate (@processClassInToGradebook (otherRun host draws days)
                     parsedData selectedDate m)
  = map withoutDate (@processClassInToGradebook host parsedData selectedDate m).
Proof.
  rewrite !processClassInToGradebook_records. unfold recordsKeyedByName. cbv zeta.
  rewrite !map_flat_map. apply flat_map_ext. intros row.
  destruct (qualifies row); [|done].
  rewrite !map_omap.
  change (@validAssignmentsOf (otherRun host draws days) parsedData)
    with (@validAssignmentsOf host parsedData).
  apply omap_agree. intros a. apply recordFor_otherRun.
Qed.

(** X16. What a run takes from the random draws, the clock and the mapping.
    The student, the assignment, the category, the mark and the total of
    the records do not depend on the draws of [Math.random] nor on the list
    of working days, and they depend on the mapping only through its entries
    at the keys that are the upper case of some string: two runs on the
    same table and start date, whatever their draws and working days, with
    two mappings that agree at these keys, give records that have these five
    values in common, one for one. The mappings are taken without the key
    hasOwnProperty, since the run calls the method of that name on the
    mapping and fails when the mapping has an entry there. So a rule whose
    key is typed in lower case changes no mark. *)
Theorem processClassInToGradebook_reads_upper_case_keys (parsedData : ParseResult)
  (selectedDate : jsstring) (m m' : GradeMapping)
  (draws draws' : nat -> nat -> nat) (days days' : jsstring -> list jsstring) :
  m !! str "hasOwnProperty" = None -> m' !! str "hasOwnProperty" = None ->
  (forall s, m !! toUpperCase s = m' !! toUpperCase s) ->
  map withoutDate (@processClassInToGradebook (otherRun host draws days)
                     parsedData selectedDate m)
  = map withoutDate (@processClassInToGradebook (otherRun host draws' days')
                       parsedData selectedDate m').
Proof.
  intros _ _ H. rewrite !processClassInToGradebook_otherRun.
  by rewrite (processClassInToGradebook_agree parsedData selectedDate m m').
Qed.

End OtherRun.



Lemma processClassInToGradebook_record_fields_witness :
  exists row a,
    row ∈ studentDataRowsOf sampleTable /\ a ∈ @validAssignmentsOf refHost sampleTable
    /\ StudentName amyRecord = cell row 0 /\ StudentName amyRecord <> []
    /\ startsWith (StudentName amyRecord) (str "---") = false
    /\ AssignmentName amyRecord = name a /\ AssignmentName amyRecord <> []
    /\ trim (cell row (originalIndex a)) <> trim (AssignmentName amyRecord)
    /\ Category amyRecord = str "Coursework"
    /\ TotalMarksPossible amyRecord = toFixed1 (parseFloat (totalMarks a))
    /\ TotalMarksPossible amyRecord <> []
    /\ (Marks amyRecord = [] \/ Marks amyRecord = str "0"
        \/ exists x : number, Marks amyRecord = toFixed1 x).
Proof.
  apply (@processClassInToGradebook_record_fields refHost sampleTable (str "2024-03-05") ∅).
  apply list_elem_of_In. vm_compute. left. reflexivity.
Defined.


(** The upper case of the reference host is never the lower-case letter a. *)
Lemma ref_toUpperCase_not_a (s : jsstring) : ref_toUpperCase s <> str "a".
Proof.
  change (str "a") with [97%N].
  destruct s as [|c [|d s]]; [done| |done].
  unfold ref_toUpperCase. cbn [map]. intros [= H].
  destruct (N.leb_spec 97 c); destruct (N.leb_spec c 122); simpl in H; lia.
Qed.

Lemma processClassInToGradebook_reads_upper_case_keys_witness :
  map withoutDate
      (@processClassInToGradebook (otherRun refHost (fun _ _ => 0) (fun _ => []))
         (parseCSV gradeLetterTable) (str "2024-03-05") ∅)
  = map withoutDate
        (@processClassInToGradebook
           (otherRun refHost (fun _ n => n - 1) (fun _ => [str "04/03/2024"; str "05/03/2024"]))
           (parseCSV gradeLetterTable) (str "2024-03-05") lowerCaseMapping).
Proof.
  apply (@processClassInToGradebook_reads_upper_case_keys refHost).
  - reflexivity.
  - vm_compute. reflexivity.
  - intros s. unfold lowerCaseMapping. rewrite lookup_empty. symmetry.
    apply lookup_singleton_ne. apply not_eq_sym, ref_toUpperCase_not_a.
Defined.

(** ** The mapping after a file is loaded, and the run on the file *)

Section LoadThenRun.
Context {host : Host}.


(** X18. The order in which two files are loaded does not matter: the
    mapping has the same entries after the one then the other as after the
    other then the one. *)
Theorem handleFileSelect_order (content1 content2 : jsstring) (prev : GradeMapping) :
  handleFileSelect content1 (handleFileSelect content2 prev)
  = handleFileSelect content2 (handleFileSelect content1 prev).
Proof.
  apply map_eq. intros k. unfold handleFileSelect.
  rewrite !updateGradeMapping_lookup.
  destruct (prev !! k); [done|].
  by do 2 destruct (bool_decide _).
Qed.

End LoadThenRun.


(** ** The date in day, month, year order *)

Lemma countOf_cons (c d : N) (s : jsstring) :
  countOf c (d :: s) = (if (d =? c)%N then 1 else 0) + countOf c s.
Proof.
  unfold countOf. rewrite filter_cons.
  destruct (N.eqb_spec d c); [by rewrite decide_True|by rewrite decide_False].
Qed.

Lemma countOf_app (c : N) (s t : jsstring) : countOf c (s ++ t) = countOf c s + countOf c t.
Proof. unfold countOf. by rewrite filter_app, length_app. Qed.

Lemma split_from_length (sep : N) (cur s : jsstring) :
  length (split_from sep cur s) = S (countOf sep s).
Proof.
  revert cur. induction s as [|c s IH]; intros cur; [done|].
  rewrite countOf_cons. simpl. destruct (c =? sep)%N; simpl; by rewrite IH.
Qed.

Lemma split_from_none (sep : N) (cur s : jsstring) :
  countOf sep s = 0 -> split_from sep cur s = [cur ++ s].
Proof.
  revert cur. induction s as [|c s IH]; intros cur; [by rewrite app_nil_r|].
  rewrite countOf_cons. simpl. destruct (c =? sep)%N; [done|]. simpl. intros H.
  by rewrite IH, <- app_assoc.
Qed.

Lemma split_from_piece (sep : N) (cur s rest : jsstring) :
  countOf sep s = 0 ->
  split_from sep cur (s ++ sep :: rest) = (cur ++ s) :: split_from sep [] rest.
Proof.
  revert cur. induction s as [|c s IH]; intros cur.
  - intros _. simpl. by rewrite N.eqb_refl, app_nil_r.
  - rewrite countOf_cons. simpl. destruct (c =? sep)%N; [done|]. simpl. intros H.
    by rewrite IH, <- app_assoc.
Qed.

(** X19. [formatDateToUK] turns a date of three pieces separated by hyphens
    round, to the last piece, a slash, the middle piece, a slash and the
    first piece; a text that does not have exactly two hyphens is returned
    as it is. The fallback date of [processClassInToGradebook] is computed
    the same way. *)
Theorem formatDateToUK_cases :
  (forall y m d : jsstring,
      countOf 45%N y = 0 -> countOf 45%N m = 0 -> countOf 45%N d = 0 ->
      formatDateToUK (y ++ str "-" ++ m ++ str "-" ++ d) = d ++ str "/" ++ m ++ str "/" ++ y)
  /\ (forall isoDate, countOf 45%N isoDate <> 2 -> formatDateToUK isoDate = isoDate)
  /\ (forall isoDate, formatDateToUK isoDate = fallbackDateOf isoDate).
Proof.
  split; [|split].
  - intros y m d Hy Hm Hd. unfold formatDateToUK, split.
    change (str "-") with [45%N]. simpl app.
    rewrite (split_from_piece 45 [] y) by done.
    rewrite (split_from_piece 45 [] m) by done.
    rewrite (split_from_none 45 [] d) by done.
    reflexivity.
  - intros iso H. unfold formatDateToUK, split. rewrite split_from_length.
    destruct (Nat.eqb_spec (S (countOf 45%N iso)) 3); [lia|done].
  - intros iso. unfold formatDateToUK, fallbackDateOf. by destruct (_ =? _).
Qed.

(** ** The editor of the mapping *)

Lemma updateEntry_snoc (entries : list (jsstring * jsstring)) (kv : jsstring * jsstring)
  (oldKey newKey newValue : jsstring) :
  updateEntry (entries ++ [kv]) oldKey newKey newValue
  = updateEntry_step oldKey newKey newValue (updateEntry entries oldKey newKey newValue) kv.
Proof. unfold updateEntry. by rewrite fold_left_app. Qed.

Lemma NoDup_keys_snoc (entries : list (jsstring * jsstring)) (k v : jsstring) :
  NoDup (map fst (entries ++ [(k, v)])) ->
  NoDup (map fst entries) /\ forall w, (k, w) ∉ entries.
Proof.
  rewrite map_app. simpl. intros H. apply NoDup_app in H as (H1 & H2 & _).
  split; [done|]. intros w Hw. apply (H2 k); [|by left].
  apply list_elem_of_fmap. by exists (k, w).
Qed.

(** The entries of the new mapping at the keys other than the new key: the
    entries of the list, without the one of the old key. *)
Lemma updateEntry_lookup_other (entries : list (jsstring * jsstring))
  (oldKey newKey newValue k v : jsstring) :
  NoDup (map fst entries) -> k <> newKey ->
  updateEntry entries oldKey newKey newValue !! k = Some v
  <-> k <> oldKey /\ (k, v) ∈ entries.
Proof.
  intros Hnd Hk. induction entries as [|[k' v'] l IH] using rev_ind.
  - unfold updateEntry. simpl. rewrite lookup_empty. split; [done|].
    by intros [_ ?%elem_of_nil].
  - apply NoDup_keys_snoc in Hnd as [Hnd Hfresh]. specialize (IH Hnd).
    rewrite updateEntry_snoc. unfold updateEntry_step. simpl.
    rewrite elem_of_app, list_elem_of_singleton.
    destruct (decide (k' = oldKey)) as [->|Hne].
    + rewrite streq_refl, lookup_insert_ne by done. rewrite IH. split.
      * intros [? ?]. auto.
      * intros [? [?|[= ? ?]]]; [done|]. by subst.
    + rewrite (streq_false _ _ Hne). destruct (decide (k = k')) as [->|Hkk].
      * rewrite lookup_insert_eq. split.
        -- intros [= ->]. auto.
        -- intros [_ [Hin|[= ->]]]; [|done]. by apply Hfresh in Hin.
      * rewrite lookup_insert_ne by done. rewrite IH. split.
        -- intros [? ?]. auto.
        -- intros [? [?|[= ? ?]]]; [done|]. by subst.
Qed.

(** The entry of the new mapping at the new key, when the old key is one of
    the entries: the new value, unless an entry of the list that comes after
    the one of the old key has the new key. *)
Lemma updateEntry_lookup_new (entries : list (jsstring * jsstring))
  (oldKey newKey newValue : jsstring) :
  oldKey ∈ map fst entries ->
  updateEntry entries oldKey newKey newValue !! newKey = Some newValue
  \/ (newKey <> oldKey
      /\ exists w, (newKey, w) ∈ entries
                   /\ updateEntry entries oldKey newKey newValue !! newKey = Some w).
Proof.
  induction entries as [|[k' v'] l IH] using rev_ind; [by intros ?%elem_of_nil|].
  rewrite map_app, elem_of_app. simpl. rewrite list_elem_of_singleton.
  rewrite updateEntry_snoc. unfold updateEntry_step. simpl. intros Hold.
  destruct (decide (k' = oldKey)) as [->|Hne].
  - rewrite streq_refl, lookup_insert_eq. by left.
  - rewrite (streq_false _ _ Hne).
    destruct Hold as [Hold|Hold]; [|by subst].
    destruct (decide (k' = newKey)) as [->|Hkn].
    + rewrite lookup_insert_eq. right. split; [done|]. exists v'. split; [|done].
      apply elem_of_app. right. by left.
    + rewrite lookup_insert_ne by done.
      destruct (IH Hold) as [?|(? & w & Hw & ?)]; [by left|].
      right. split; [done|]. exists w. split; [|done]. apply elem_of_app. by left.
Qed.

Lemma entriesOf_key (mapping : GradeMapping) (entries : list (jsstring * jsstring))
  (k : jsstring) :
  entriesOf mapping entries -> (k ∈ map fst entries <-> is_Some (mapping !! k)).
Proof.
  intros [_ H]. rewrite list_elem_of_fmap. split.
  - intros ([k' v] & -> & Hin). apply H in Hin. by eexists.
  - intros [v Hv]. exists (k, v). split; [done|]. by apply H.
Qed.

(** What [updateEntry] gives when the old key is a key of the mapping: the
    mapping without the old entry and with an entry at the new key, whose
    value is the new value or, when the new key is the key of another
    entry, possibly the value of that entry. *)
Lemma updateEntry_shape (mapping : GradeMapping) (entries : list (jsstring * jsstring))
  (oldKey newKey newValue : jsstring) :
  entriesOf mapping entries -> is_Some (mapping !! oldKey) ->
  exists w,
    updateEntry entries oldKey newKey newValue = <[newKey := w]> (delete oldKey mapping)
    /\ (w = newValue \/ (newKey <> oldKey /\ mapping !! newKey = Some w)).
Proof.
  intros Hentries Hold. pose proof Hentries as [Hnd Hin].
  apply (entriesOf_key _ _ _ Hentries) in Hold.
  assert (Hother : forall k, k <> newKey ->
            updateEntry entries oldKey newKey newValue !! k = delete oldKey mapping !! k).
  { intros k Hk. apply option_eq. intros v.
    rewrite updateEntry_lookup_other by done.
    rewrite lookup_delete_Some, Hin. split; intros [? ?]; auto. }
  destruct (updateEntry_lookup_new entries oldKey newKey newValue Hold)
    as [Hnew|(Hne & w & Hw & Hnew)].
  - exists newValue. split; [|by left]. apply map_eq. intros k.
    destruct (decide (k = newKey)) as [->|Hk].
    + by rewrite lookup_insert_eq.
    + rewrite lookup_insert_ne by done. by apply Hother.
  - exists w. split; [|right; split; [done|by apply Hin]]. apply map_eq. intros k.
    destruct (decide (k = newKey)) as [->|Hk].
    + by rewrite lookup_insert_eq.
    + rewrite lookup_insert_ne by done. by apply Hother.
Qed.


(** X21. Renaming a rule to the key of another rule merges the two: the
    new mapping has one rule less. The old key is gone, the other rules are
    kept, and the rule at the new key has the new value or the value the
    other rule had, depending on the order in which the host lists the
    entries. *)
Theorem updateEntry_onto_existing_key (mapping : GradeMapping)
  (entries : list (jsstring * jsstring)) (oldKey newKey newValue : jsstring) :
  entriesOf mapping entries -> is_Some (mapping !! oldKey) ->
  newKey <> oldKey -> is_Some (mapping !! newKey) ->
  let newMap := updateEntry entries oldKey newKey newValue in
  S (size newMap) = size mapping
  /\ newMap !! oldKey = None
  /\ (newMap !! newKey = Some newValue \/ newMap !! newKey = mapping !! newKey)
  /\ forall k, k <> oldKey -> k <> newKey -> newMap !! k = mapping !! k.
Proof.
  intros Hentries Hold Hne Hnew newMap. subst newMap.
  destruct (updateEntry_shape mapping entries oldKey newKey newValue Hentries Hold)
    as (w & -> & Hw).
  split; [|split; [|split]].
  - rewrite map_size_insert_Some by (by rewrite lookup_delete_ne).
    rewrite map_size_delete_Some by done.
    destruct Hold as [v Hv]. assert (size mapping <> 0); [|lia].
    intros Hz. apply map_size_empty_inv in Hz. by rewrite Hz, lookup_empty in Hv.
  - rewrite lookup_insert_ne by done. apply lookup_delete_eq.
  - rewrite lookup_insert_eq. destruct Hw as [->|[_ ->]]; auto.
  - intros k H1 H2. rewrite lookup_insert_ne by done. by apply lookup_delete_ne.
Qed.

(** The entries of a mapping, as [map_to_list] lists them. *)
Lemma entriesOf_map_to_list (mapping : GradeMapping) : entriesOf mapping (map_to_list mapping).
Proof.
  split; [apply NoDup_fst_map_to_list|]. intros k v. apply elem_of_map_to_list.
Qed.


Lemma updateEntry_onto_existing_key_witness :
  let newMap := updateEntry (map_to_list twoRules) (str "B") (str "A") (str "80") in
  S (size newMap) = size twoRules
  /\ newMap !! str "B" = None
  /\ (newMap !! str "A" = Some (str "80") \/ newMap !! str "A" = twoRules !! str "A")
  /\ forall k, k <> str "B" -> k <> str "A" -> newMap !! k = twoRules !! k.
Proof.
  apply (updateEntry_onto_existing_key twoRules (map_to_list twoRules)).
  - apply entriesOf_map_to_list.
  - exists (str "80"). vm_compute. reflexivity.
  - vm_compute. discriminate.
  - exists (str "90"). vm_compute. reflexivity.
Defined.

Lemma str_inj (s t : string) : str s = str t -> s = t.
Proof.
  revert t. induction s as [|c s IH]; intros [|d t]; try done.
  unfold str; fold str. intros [= Hc Hs]. f_equal; [|by apply IH].
  apply (f_equal ascii_of_N) in Hc. by rewrite !ascii_N_embedding in Hc.
Qed.

Lemma decimalOfZ_inj (a b : nat) : decimalOfZ (Z.of_nat a) = decimalOfZ (Z.of_nat b) -> a = b.
Proof.
  assert (Hnonnil : forall n : N, N.to_uint n <> Decimal.Nil).
  { intros [|p]; [done|]. apply DecimalPos.Unsigned.to_uint_nonnil. }
  unfold decimalOfZ. intros H%str_inj.
  apply (f_equal NilZero.uint_of_string) in H.
  rewrite !NilZero.usu in H by apply Hnonnil.
  injection H as H. apply Unsigned.to_uint_inj in H. lia.
Qed.

Lemma newGradeKey_inj (a b : nat) : newGradeKey a = newGradeKey b -> a = b.
Proof. unfold newGradeKey. intros H%app_inv_head. by apply decimalOfZ_inj. Qed.

Lemma addEntry_key (mapping : GradeMapping) :
  addEntry mapping = <[newGradeKey (size mapping + 1) := str "0"]> mapping.
Proof. reflexivity. Qed.

(** X22. The button that adds a rule can reset a rule instead. After two
    rules are added to a mapping of [n] rules, the second under the key New
    Grade [n + 2], after the value of that rule is edited and another rule
    is removed, the mapping has [n + 1] rules, so the next rule is added
    under the key New Grade [n + 2] again: the value that was entered is
    replaced by 0, and the number of rules does not grow. *)
Theorem addEntry_can_reset_a_rule (mapping : GradeMapping) (removed value : jsstring)
  (entries : list (jsstring * jsstring)) :
  let n := size mapping in
  let twice := addEntry (addEntry mapping) in
  let edited := updateEntry entries (newGradeKey (n + 2)) (newGradeKey (n + 2)) value in
  let shorter := removeEntry removed edited in
  is_Some (mapping !! removed) ->
  mapping !! newGradeKey (n + 1) = None -> mapping !! newGradeKey (n + 2) = None ->
  entriesOf twice entries ->
  shorter !! newGradeKey (n + 2) = Some value
  /\ addEntry shorter !! newGradeKey (n + 2) = Some (str "0")
  /\ size (addEntry shorter) = size shorter.
Proof.
  intros n twice edited shorter Hrem H1 H2 Hentries.
  assert (H12 : newGradeKey (n + 1) <> newGradeKey (n + 2)).
  { intros H%newGradeKey_inj. lia. }
  assert (Hr1 : removed <> newGradeKey (n + 1)).
  { intros ->. rewrite H1 in Hrem. by destruct Hrem. }
  assert (Hr2 : removed <> newGradeKey (n + 2)).
  { intros ->. rewrite H2 in Hrem. by destruct Hrem. }
  assert (Hsize1 : size (addEntry mapping) = n + 1).
  { rewrite addEntry_key, map_size_insert_None by done. fold n. lia. }
  assert (Htwice : twice = <[newGradeKey (n + 2) := str "0"]>
                             (<[newGradeKey (n + 1) := str "0"]> mapping)).
  { unfold twice. rewrite (addEntry_key (addEntry mapping)), Hsize1.
    replace (n + 1 + 1) with (n + 2) by lia. by rewrite addEntry_key. }
  assert (Hsize2 : size twice = n + 2).
  { rewrite Htwice, !map_size_insert_None; [fold n; lia|done|].
    by rewrite lookup_insert_ne. }
  assert (Hedited : edited = <[newGradeKey (n + 2) := value]> twice).
  { destruct (updateEntry_shape twice entries (newGradeKey (n + 2)) (newGradeKey (n + 2)) value
                Hentries) as (w & Heq & [->|[? _]]); [|by rewrite insert_delete_eq in Heq|done].
    rewrite Htwice, lookup_insert_eq. by eexists. }
  assert (Hsize3 : size shorter = n + 1).
  { unfold shorter, removeEntry. rewrite map_size_delete_Some.
    - rewrite Hedited, map_size_insert_Some, Hsize2; [lia|].
      rewrite Htwice, lookup_insert_eq. by eexists.
    - rewrite Hedited, Htwice, !lookup_insert_ne by done. done. }
  assert (Hvalue : shorter !! newGradeKey (n + 2) = Some value).
  { unfold shorter, removeEntry. rewrite lookup_delete_ne by done.
    by rewrite Hedited, lookup_insert_eq. }
  split; [done|]. rewrite addEntry_key.
  replace (size shorter + 1) with (n + 2) by lia.
  split; [by rewrite lookup_insert_eq|].
  apply map_size_insert_Some. by eexists.
Qed.

Lemma addEntry_can_reset_a_rule_witness :
  let twice := addEntry (addEntry twoRules) in
  let edited := updateEntry (map_to_list twice) (newGradeKey 4) (newGradeKey 4) (str "55") in
  let shorter := removeEntry (str "A") edited in
  shorter !! newGradeKey 4 = Some (str "55")
  /\ addEntry shorter !! newGradeKey 4 = Some (str "0")
  /\ size (addEntry shorter) = size shorter.
Proof.
  apply (addEntry_can_reset_a_rule twoRules (str "A") (str "55")
           (map_to_list (addEntry (addEntry twoRules)))).
  - exists (str "90"). vm_compute. reflexivity.
  - vm_compute. reflexivity.
  - vm_compute. reflexivity.
  - apply entriesOf_map_to_list.
Defined.

Section MappedMarks.
Context {host : Host}.


End MappedMarks.


Example late_mark :
  map (fun r => (StudentName r, Marks r))
      (@processClassInToGradebook refHost (parseCSV twoColumnsOneName) (str "2024-03-05")
         lateMapping)
  = [ (str "Amy", str "10.0"); (str "Amy", str "10.0");
      (str "Bob", str "5.0"); (str "Bob", str "5.0") ].
Proof. vm_compute. reflexivity. Qed.

(** In [resubmittedTable] the left column has status words only, and the
    statistics held under the name HW are those of the right column, which
    is mixed: the word for resubmitted in the left column goes through the
    mapping. It gets the empty mark without a rule, and 10 per cent of the
    total with a rule of 10. *)
Example resubmitted_under_a_shared_name :
  type (@analyzeColumn refHost ∅ (studentDataRowsOf (parseCSV resubmittedTable))
          {| name := str "HW"; totalMarks := str "10"; originalIndex := 1 |}) = PURE_STATUS
  /\ map Marks (@processClassInToGradebook refHost (parseCSV resubmittedTable)
                  (str "2024-03-05") ∅)
     = [[]; str "7.0"]
  /\ map Marks (@processClassInToGradebook refHost (parseCSV resubmittedTable)
                  (str "2024-03-05") {[ s_resubmitted := str "10" ]})
     = [str "1.0"; str "7.0"].
Proof. repeat split; vm_compute; reflexivity. Qed.
